(** * ControlTray: the coaching decision engine

    A shallow embedding of [src/components/control-tray/ControlTray.tsx]:
    the session validator, the transition notifier, the speech activity
    tracker, the heartbeat scheduler, the frame sampler and the stream
    switch.  Every callback of the component is a function into a small
    trace monad that records, in program order, what the callback does to
    the outside world (console lines, DOM events, state setters, messages,
    timers).  A component-level step function then plays renders and timer
    firings against those callbacks. *)

From Stdlib Require Import Bool List ZArith Lia String.
From Stdlib Require Import Floats.PrimFloat.
Import ListNotations.

Set Implicit Arguments.
Set Warnings "-inexact-float".
Local Open Scope Z_scope.

(* ================================================================== *)
(** * Data model *)
(* ================================================================== *)

(** [type Game = "EAFC" | "League of Legends" | "Street Fighter 6" | null] *)
Inductive GameName := EAFC | LeagueOfLegends | StreetFighter6.
Definition Game := option GameName.

(** A [MediaStream] object is only ever tested for being non-null and
    handed on; its identity is all the component sees. *)
Definition MediaStream := nat.

(** [UseMediaStreamResult.type] *)
Inductive SourceKind := Webcam | Screen.

(** The readable part of [UseMediaStreamResult]; its [start] and [stop]
    methods appear as the effects [Start] and [Stop] below. *)
Record UseMediaStreamResult := {
  isStreaming : bool;
  stream : option MediaStream
}.

(** JavaScript truthiness of a [MediaStream | null] value. *)
Definition truthy {A} (o : option A) : bool :=
  match o with Some _ => true | None => false end.

(** The texts handed to [client.send].  Each is a fixed template of the
    source; the two long ones splice in the active game and a block chosen
    by a [switch] on it. *)
Inductive OutboundText :=
| forcedStopNotification
| screenShareNotification (game : Game)
| screenShareStoppedNotification
| coachingInstruction (game : Game).

Inductive CustomEventType := screenSharingStarted | screenSharingStopped.

(** The four timer callbacks the component registers. *)
Inductive TimerCallback :=
| validationCallback | settleCallback | tickCallback | sendVideoFrameCallback.

(** Everything a callback can do besides computing a value.
    [DispatchEvent type game] is
    [window.dispatchEvent(new CustomEvent(type, {detail: {game}}))];
    [ClientSend text] is [client.send([{text}])];
    [DrawImage w h] and [SendRealtimeInput mimeType w h] are the drawing of
    the video frame on the [w] by [h] canvas and the
    [client.sendRealtimeInput] of that canvas, encoded;
    [Start k] and [Stop k] are the calls of [start()] and [stop()] on the
    adapter of kind [k]; the [Set...] effects are the state setters and
    assignments of the same names. *)
Inductive Effect :=
| ConsoleLog (line : string)
| ConsoleError (line : string)
| DispatchEvent (type : CustomEventType) (game : Game)
| SetWasScreenSharing (b : bool)
| SetIsAISpeaking (b : bool)
| SetIsUserSpeaking (b : bool)
| SetLastUserSpeechTime (t : Z)
| SetLastVolumeRef (v : float)
| SetActiveVideoStream (s : option MediaStream)
| OnVideoStreamChange (s : option MediaStream)
| SetSrcObject (s : option MediaStream)
| ClientSend (text : OutboundText)
| DrawImage (width height : N)
| SendRealtimeInput (mimeType : string) (width height : N)
| Start (k : SourceKind)
| Stop (k : SourceKind)
| SetInterval (cb : TimerCallback) (ms : Z)
| SetTimeout (cb : TimerCallback) (ms : Z)
| ClearInterval (cb : TimerCallback)
| ClearTimeout (cb : TimerCallback)
| RequestAnimationFrame (cb : TimerCallback).

(* ================================================================== *)
(** * The trace monad *)
(* ================================================================== *)

Definition Action (A : Type) : Type := (A * list Effect)%type.

Definition ret {A} (a : A) : Action A := (a, []).

Definition bind {A B} (m : Action A) (k : A -> Action B) : Action B :=
  let (a, t) := m in let (b, t') := k a in (b, t ++ t').

Definition emit (e : Effect) : Action unit := (tt, [e]).

Definition value {A} (m : Action A) : A := fst m.
Definition effects {A} (m : Action A) : list Effect := snd m.

Declare Scope action_scope.
Delimit Scope action_scope with action.
Notation "x <- m ;; k" := (bind m (fun x => k))
  (at level 61, m at next level, right associativity) : action_scope.
Notation "m ;; k" := (bind m (fun _ => k))
  (at level 61, right associativity) : action_scope.
Local Open Scope action_scope.

Definition log (line : string) : Action unit := emit (ConsoleLog line).

(** [if (b) { m }] *)
Definition when (b : bool) (m : Action unit) : Action unit :=
  if b then m else ret tt.

(* ================================================================== *)
(** * What one render hands to its closures *)
(* ================================================================== *)

(** Values that reach the component from outside: the two capture
    adapters, props, context, and the state driven by the tray's buttons. *)
Record Inputs := {
  webcam : UseMediaStreamResult;
  screenCapture : UseMediaStreamResult;
  videoStream : option MediaStream;
  activeVideoStream : option MediaStream;
  activeGame : Game;
  connected : bool;
  muted : bool
}.

(** State the component's own effects write.  All four fields are
    dependencies of the screen-sharing effect: a change of any of them
    runs its cleanup and its body again. *)
Record State := {
  wasScreenSharing : bool;
  isAISpeaking : bool;
  isUserSpeaking : bool;
  lastUserSpeechTime : Z
}.

(** One render: what the closures created during it capture. *)
Record Render := { inputs : Inputs; state : State }.

Coercion inputs : Render >-> Inputs.
Coercion state : Render >-> State.

(** [const videoStreams = [useWebcam(), useScreenCapture()]] *)
Definition videoStreams (r : Inputs) : list UseMediaStreamResult :=
  [webcam r; screenCapture r].

(** The stream handles supplied from outside the adapters. *)
Definition externalStreams (r : Inputs) : list (option MediaStream) :=
  [videoStream r; activeVideoStream r].

(** [client && connected && !muted].  [client] is the context's client
    object; its type has no null, so the first conjunct is always truthy. *)
Definition mayNotify (r : Inputs) : bool := connected r && negb (muted r).

(** [currentStateRef.current] *)
Record CurrentState := {
  ref_connected : bool;
  ref_activeGame : Game;
  ref_videoStream : option MediaStream;
  ref_activeVideoStream : option MediaStream;
  ref_isAISpeaking : bool;
  ref_isUserSpeaking : bool;
  ref_lastUserSpeechTime : Z
}.

(** The effect that copies the render into the ref. *)
Definition updateRef (r : Render) : CurrentState :=
  {| ref_connected := connected r;
     ref_activeGame := activeGame r;
     ref_videoStream := videoStream r;
     ref_activeVideoStream := activeVideoStream r;
     ref_isAISpeaking := isAISpeaking r;
     ref_isUserSpeaking := isUserSpeaking r;
     ref_lastUserSpeechTime := lastUserSpeechTime r |}.

(* ================================================================== *)
(** * Speech activity tracker *)
(* ================================================================== *)

(** [useEffect(() => { setIsAISpeaking(volume > 0.01); }, [volume])] *)
Definition aiSpeakingEffect (volume : float) : Action unit :=
  emit (SetIsAISpeaking (PrimFloat.ltb 0.01 volume)).

(** The effect on [[inVolume, isUserSpeaking]]; [now] is [Date.now()]. *)
Definition userSpeakingEffect
    (inVolume : float) (isUserSpeaking : bool) (now : Z) : Action unit :=
  let volumeThreshold := 0.015%float in
  let currentlyUserSpeaking := PrimFloat.ltb volumeThreshold inVolume in
  when (negb (Bool.eqb currentlyUserSpeaking isUserSpeaking))
    (emit (SetIsUserSpeaking currentlyUserSpeaking) ;;
     when currentlyUserSpeaking (emit (SetLastUserSpeechTime now))) ;;
  emit (SetLastVolumeRef inVolume).

(* ================================================================== *)
(** * Session validator *)
(* ================================================================== *)

Definition validateScreenSharingState (r : Inputs) : Action bool :=
  log "VALIDATION DEBUG" ;;
  let isScreenCaptureActive :=
    isStreaming (screenCapture r) && truthy (stream (screenCapture r)) in
  let isWebcamActive :=
    isStreaming (webcam r) && truthy (stream (webcam r)) in
  let hasActiveVideoStream :=
    truthy (videoStream r) || truthy (activeVideoStream r) in
  let isActiveScreenSharing :=
    isScreenCaptureActive || isWebcamActive || hasActiveVideoStream in
  if isActiveScreenSharing then
    log "VALIDATION PASSED: Screen sharing is active" ;; ret true
  else
    log "VALIDATION FAILED: No screen sharing detected" ;; ret false.

(** The body of [validationInterval = setInterval(..., 5000)]. *)
Definition validationIntervalCallback (r : Render) : Action unit :=
  isActuallyScreenSharing <- validateScreenSharingState r ;;
  when (wasScreenSharing r && negb isActuallyScreenSharing)
    (log "VALIDATION FAILED: Forcing screen sharing stop due to invalid state" ;;
     emit (SetWasScreenSharing false) ;;
     when (isStreaming (screenCapture r)) (emit (Stop Screen)) ;;
     when (isStreaming (webcam r)) (emit (Stop Webcam)) ;;
     emit (DispatchEvent screenSharingStopped (activeGame r)) ;;
     when (mayNotify r) (emit (ClientSend forcedStopNotification))).

(* ================================================================== *)
(** * Transition notifier *)
(* ================================================================== *)

(** The body of [setTimeout(..., 1000)] on the started path. *)
Definition settleTimeoutCallback (r : Render) : Action unit :=
  stillSharing <- validateScreenSharingState r ;;
  if stillSharing then
    log "Screen sharing started. Notifying CoachSetup." ;;
    emit (DispatchEvent screenSharingStarted (activeGame r)) ;;
    emit (SetWasScreenSharing true) ;;
    when (mayNotify r)
      (emit (ClientSend (screenShareNotification (activeGame r))) ;;
       log "Sent comprehensive screen sharing start notification to AI")
  else
    log "Screen sharing validation failed on startup. Not starting heartbeat.".

(* ================================================================== *)
(** * Heartbeat scheduler *)
(* ================================================================== *)

(** The body of [tickInterval = setInterval(..., 10000)]: [r] is the
    render that registered it, [current] is [currentStateRef.current] at
    the tick and [now] is [Date.now()]. *)
Definition tickIntervalCallback
    (r : Render) (current : CurrentState) (now : Z) : Action unit :=
  log "HEARTBEAT TICK - Starting new cycle" ;;
  log "HEARTBEAT VALIDATION - Checking screen sharing" ;;
  if negb (isStreaming (screenCapture r)) && negb (isStreaming (webcam r)) then
    log "HEARTBEAT VALIDATION FAILED: No screen sharing active"
  else
    log "HEARTBEAT VALIDATION PASSED: All checks successful" ;;
    let isSomeoneCurrentlySpeaking :=
      ref_isAISpeaking current || ref_isUserSpeaking current in
    let timeSinceLastUserSpeech := now - ref_lastUserSpeechTime current in
    let shouldAllowSystemCommand := timeSinceLastUserSpeech >? 10000 in
    log "DETAILED SPEECH CHECK" ;;
    (if negb isSomeoneCurrentlySpeaking && shouldAllowSystemCommand then
       log "SENDING COACHING INSTRUCTION - All speech conditions met" ;;
       log "Sending comprehensive coaching instruction to AI..." ;;
       log "SYSTEM COMMAND CONTENT" ;;
       emit (ClientSend (coachingInstruction (activeGame r)))
     else if isSomeoneCurrentlySpeaking then
       log "Skipping system command - conversation in progress"
     else
       when (negb shouldAllowSystemCommand)
         (log "Skipping system command - recent user speech")) ;;
    log "HEARTBEAT TICK - Cycle complete".

(* ================================================================== *)
(** * The screen-sharing effect *)
(* ================================================================== *)

Definition screenSharingEffect (r : Render) : Action unit :=
  emit (SetInterval validationCallback 5000) ;;
  isCurrentlyScreenSharing <- validateScreenSharingState r ;;
  (if isCurrentlyScreenSharing && negb (wasScreenSharing r) then
     emit (SetTimeout settleCallback 1000)
   else if negb isCurrentlyScreenSharing && wasScreenSharing r then
     log "Screen sharing stopped. Notifying CoachSetup." ;;
     emit (DispatchEvent screenSharingStopped (activeGame r)) ;;
     emit (SetWasScreenSharing false) ;;
     when (mayNotify r)
       (emit (ClientSend screenShareStoppedNotification) ;;
        log "Sent screen sharing stop notification to AI")
   else ret tt) ;;
  if isCurrentlyScreenSharing then
    log "Bulletproof screen sharing active. Starting gameplay analysis heartbeat." ;;
    log "HEARTBEAT STARTING - Setting up 10-second interval" ;;
    emit (SetInterval tickCallback 10000)
  else
    stillSharing <- validateScreenSharingState r ;;
    when (negb stillSharing)
      (log "VALIDATION: Screen sharing not active. Heartbeat stopped.").

(** The function the effect returns; [tickInterval] is whether that
    variable was assigned. *)
Definition screenSharingCleanup (tickInterval : bool) : Action unit :=
  when tickInterval
    (log "HEARTBEAT STOPPING - Clearing intervals" ;;
     emit (ClearInterval tickCallback)) ;;
  emit (ClearInterval validationCallback).

(* ================================================================== *)
(** * Frame sampler *)
(* ================================================================== *)

(** [videoWidth] and [videoHeight] of the video element (unsigned long). *)
Record HTMLVideoElement := { videoWidth : N; videoHeight : N }.

(** [canvas.width = video.videoWidth * 0.25]: the canvas dimension is an
    unsigned long, so the assignment drops the fraction. *)
Definition quarter (n : N) : N := (n / 4)%N.

(** [video] and [canvas] are [videoRef.current] and
    [renderCanvasRef.current]. *)
Definition sendVideoFrame
    (video : option HTMLVideoElement) (canvas : bool) (connected : bool)
  : Action unit :=
  match video, canvas with
  | Some v, true =>
      let width := quarter (videoWidth v) in
      let height := quarter (videoHeight v) in
      when (0 <? width + height)%N
        (emit (DrawImage width height) ;;
         emit (SendRealtimeInput "image/jpeg" width height)) ;;
      when connected (emit (SetTimeout sendVideoFrameCallback 2000))
  | _, _ => ret tt
  end.



(* ================================================================== *)
(** * Stream switch *)
(* ================================================================== *)

Definition SourceKind_eqb (a b : SourceKind) : bool :=
  match a, b with
  | Webcam, Webcam | Screen, Screen => true
  | _, _ => false
  end.

(** [msr !== next] *)
Definition isNot (next : option SourceKind) (msr : SourceKind) : bool :=
  match next with
  | Some k => negb (SourceKind_eqb msr k)
  | None => true
  end.

Fixpoint forEach {A} (l : list A) (f : A -> Action unit) : Action unit :=
  match l with
  | [] => ret tt
  | x :: l' => f x ;; forEach l' f
  end.

(** [changeStreams(next)()].  [started] is how [await next.start()] ends:
    [Some mediaStream] when the promise resolves, [None] when it rejects. *)
Definition changeStreams
    (next : option SourceKind) (started : option MediaStream) : Action unit :=
  log "SCREEN SHARE BUTTON CLICKED" ;;
  match next with
  | Some k =>
      log "Starting stream..." ;;
      emit (Start k) ;;
      match started with
      | Some mediaStream =>
          log "Stream started successfully" ;;
          emit (SetActiveVideoStream (Some mediaStream)) ;;
          emit (OnVideoStreamChange (Some mediaStream))
      | None => emit (ConsoleError "Failed to start stream")
      end
  | None =>
      log "Stopping all streams" ;;
      emit (SetActiveVideoStream None) ;;
      emit (OnVideoStreamChange None)
  end ;;
  forEach (filter (isNot next) [Webcam; Screen]) (fun msr => emit (Stop msr)).

(* ================================================================== *)
(** * The adapters behind [start] and [stop] *)
(* ================================================================== *)

(** The two capture adapters as the stream switch needs them.  The hooks
    that implement them ([useWebcam], [useScreenCapture]) are outside the
    component; [perform] is what an effect of the component does to them,
    [trackEnded] what a capture track ending by itself does (the browser's
    own stop-sharing control, a revoked permission).  The three laws are
    the part of the adapters' contract the switch relies on: [stop()]
    leaves its own adapter not streaming, and neither [stop()] nor a track
    ending starts an adapter.  Nothing is asked of [start()]. *)
Class CaptureAdapters (A : Type) := {
  streaming : SourceKind -> A -> bool;
  perform : Effect -> A -> A;
  trackEnded : SourceKind -> A -> A;
  stop_clears : forall k a, streaming k (perform (Stop k) a) = false;
  stop_starts_nothing :
    forall k k' a, streaming k' a = false ->
                   streaming k' (perform (Stop k) a) = false;
  trackEnded_starts_nothing :
    forall k k' a, streaming k' a = false ->
                   streaming k' (trackEnded k a) = false
}.

Definition performAll {A} `{CaptureAdapters A} (t : list Effect) (a : A) : A :=
  fold_left (fun a e => perform e a) t a.

(** One click on a tray button, or a capture track ending by itself. *)
Inductive TrayEvent :=
| Click (next : option SourceKind) (started : option MediaStream)
| TrackEnded (k : SourceKind).

Definition trayStep {A} `{CaptureAdapters A} (a : A) (e : TrayEvent) : A :=
  match e with
  | Click next started => performAll (effects (changeStreams next started)) a
  | TrackEnded k => trackEnded k a
  end.

Definition atMostOneStreaming {A} `{CaptureAdapters A} (a : A) : Prop :=
  ~ (streaming Webcam a = true /\ streaming Screen a = true).

(** Which adapters are streaming: webcam first, screen capture second, as
    in [videoStreams]. *)
Definition Flags := (bool * bool)%type.

Definition setStreaming (k : SourceKind) (b : bool) (a : Flags) : Flags :=
  match k with Webcam => (b, snd a) | Screen => (fst a, b) end.

(** Modelled from the spec: the capture source adapter of the
    specification, reduced to its liveness flag.  [stop()] clears the flag
    of its own adapter, [start()] (here: one that resolves) sets it, a
    track that ends clears it. *)
#[export] Instance flagAdapters : CaptureAdapters Flags := {
  streaming k a := match k with Webcam => fst a | Screen => snd a end;
  perform e a :=
    match e with
    | Start k => setStreaming k true a
    | Stop k => setStreaming k false a
    | _ => a
    end;
  trackEnded k a := setStreaming k false a;
  stop_clears := ltac:(intros [|] [w s]; reflexivity);
  stop_starts_nothing :=
    ltac:(intros [|] [|] [w s] H; simpl in *; congruence);
  trackEnded_starts_nothing :=
    ltac:(intros [|] [|] [w s] H; simpl in *; congruence)
}.

(* ================================================================== *)
(** * The component as a transition system *)
(* ================================================================== *)

(** The callbacks above are the code; what follows is the little of React
    and of the browser that decides when they run.
    - Callbacks run one at a time, each to completion.
    - A callback closes over the values of the render that created it;
      only [currentStateRef.current] is shared and read as it is when the
      callback runs.
    - A state setter called with a value different from the current one
      re-renders the component; the screen-sharing effect depends on every
      piece of state it reads, so its cleanup and its body run again.
      A setter called with the current value does nothing.
    - The cleanup clears [tickInterval] and [validationInterval]; the
      settle timeout is not kept anywhere and is never cleared.
    - A registered timer may fire at any later time; nothing is assumed
      about delays unless a statement says so. *)

(** What the state setters in a trace do to the component's state. *)
Definition setState (s : State) (e : Effect) : State :=
  match e with
  | SetWasScreenSharing b =>
      {| wasScreenSharing := b; isAISpeaking := isAISpeaking s;
         isUserSpeaking := isUserSpeaking s;
         lastUserSpeechTime := lastUserSpeechTime s |}
  | SetIsAISpeaking b =>
      {| wasScreenSharing := wasScreenSharing s; isAISpeaking := b;
         isUserSpeaking := isUserSpeaking s;
         lastUserSpeechTime := lastUserSpeechTime s |}
  | SetIsUserSpeaking b =>
      {| wasScreenSharing := wasScreenSharing s; isAISpeaking := isAISpeaking s;
         isUserSpeaking := b;
         lastUserSpeechTime := lastUserSpeechTime s |}
  | SetLastUserSpeechTime t =>
      {| wasScreenSharing := wasScreenSharing s; isAISpeaking := isAISpeaking s;
         isUserSpeaking := isUserSpeaking s;
         lastUserSpeechTime := t |}
  | _ => s
  end.

Definition reduce (t : list Effect) (s : State) : State := fold_left setState t s.

Definition State_eqb (a b : State) : bool :=
  Bool.eqb (wasScreenSharing a) (wasScreenSharing b)
  && Bool.eqb (isAISpeaking a) (isAISpeaking b)
  && Bool.eqb (isUserSpeaking a) (isUserSpeaking b)
  && (lastUserSpeechTime a =? lastUserSpeechTime b).

Definition TimerCallback_eqb (a b : TimerCallback) : bool :=
  match a, b with
  | validationCallback, validationCallback
  | settleCallback, settleCallback
  | tickCallback, tickCallback
  | sendVideoFrameCallback, sendVideoFrameCallback => true
  | _, _ => false
  end.

(** Does the trace register a timer for [cb]? *)
Definition registers (cb : TimerCallback) (t : list Effect) : bool :=
  existsb (fun e => match e with
                    | SetInterval cb' _ | SetTimeout cb' _ => TimerCallback_eqb cb cb'
                    | _ => false
                    end) t.

(** The component between two events: the latest render, the ref, and the
    timers that are registered, each with the render whose closure it
    runs.  The cleanup clears the two intervals; nothing ever clears a
    settle timeout, so those accumulate until they fire. *)
Record Component := {
  rendered : Render;
  currentStateRef : CurrentState;
  validationInterval : option Render;
  tickInterval : option Render;
  settleTimeouts : list Render
}.

(** One run of the effects of render [r]: the cleanup of the previous run
    (when there was one), the ref update, then the effect body. *)
Definition commitOnce (c : Component) (r : Render) : Component * list Effect :=
  let t :=
    effects (when (truthy (validationInterval c))
                  (screenSharingCleanup (truthy (tickInterval c))) ;;
             screenSharingEffect r) in
  ({| rendered := r;
      currentStateRef := updateRef r;
      validationInterval := if registers validationCallback t then Some r else None;
      tickInterval := if registers tickCallback t then Some r else None;
      settleTimeouts :=
        settleTimeouts c ++ (if registers settleCallback t then [r] else []) |},
   t).

Definition withState (r : Render) (s : State) : Render :=
  {| inputs := r; state := s |}.

(** A render and the re-render its own effect asks for: the effect body
    calls a state setter only on the stopped path, and the render that
    follows finds nothing left to set (lemma [commit_settles]). *)
Definition commit (c : Component) (r : Render) : Component * list Effect :=
  let (c1, t1) := commitOnce c r in
  let s' := reduce t1 r in
  if State_eqb s' r then (c1, t1)
  else let (c2, t2) := commitOnce c1 (withState r s') in (c2, t1 ++ t2).

(** A callback has run and left trace [t]: its state setters take effect,
    and a changed state re-renders the component. *)
Definition afterCallback (c : Component) (t : list Effect) : Component * list Effect :=
  let s' := reduce t (rendered c) in
  if State_eqb s' (rendered c) then (c, t)
  else let (c', t') := commit c (withState (rendered c) s') in (c', t ++ t').

(** What a timer callback finds when it reads the fields of the two
    adapter objects it captured.  The capture hooks are outside the
    component: [AsCaptured] is an adapter object that is a value of its
    render; [Live] is one whose fields have changed since. *)
Inductive Reads :=
| AsCaptured
| Live (webcamNow screenCaptureNow : UseMediaStreamResult).

Definition observe (rd : Reads) (r : Render) : Render :=
  match rd with
  | AsCaptured => r
  | Live w s =>
      {| inputs := {| webcam := w; screenCapture := s;
                      videoStream := videoStream r;
                      activeVideoStream := activeVideoStream r;
                      activeGame := activeGame r;
                      connected := connected r;
                      muted := muted r |};
         state := r |}
  end.

(** What can happen to the mounted component.
    - [Rerender i]: it renders with inputs [i] and the screen-sharing
      effect runs again (a dependency changed; with adapter objects that
      are fresh on every render, that is every render);
    - [OutputVolume], [InputVolume]: a new value of the context's [volume]
      or of [inVolume] reaches its effect, [now] being [Date.now()] there;
    - [ValidationFires], [TickFires]: the interval registered by the last
      run of the effect fires;
    - [SettleFires n]: the [n]-th pending settle timeout fires.
    Timers carry no delay here: a registered timer may fire at any moment,
    so the executions of the component are among the ones below, and what
    holds of all of these holds of the component.  [InputVolume] stands
    for the run of the user's effect on the new sample; the run that
    follows a change of its own flag writes [lastVolumeRef] and nothing
    else. *)
Inductive Event :=
| Rerender (i : Inputs)
| OutputVolume (volume : float)
| InputVolume (inVolume : float) (now : Z)
| ValidationFires (rd : Reads)
| SettleFires (n : nat) (rd : Reads)
| TickFires (rd : Reads) (now : Z).

Fixpoint removeNth {A} (n : nat) (l : list A) : list A :=
  match n, l with
  | _, [] => []
  | O, _ :: l' => l'
  | S n', x :: l' => x :: removeNth n' l'
  end.

Definition step (c : Component) (e : Event) : Component * list Effect :=
  match e with
  | Rerender i => commit c {| inputs := i; state := rendered c |}
  | OutputVolume volume =>
      afterCallback c (effects (aiSpeakingEffect volume))
  | InputVolume inVolume now =>
      afterCallback c
        (effects (userSpeakingEffect inVolume (isUserSpeaking (rendered c)) now))
  | ValidationFires rd =>
      match validationInterval c with
      | Some r => afterCallback c (effects (validationIntervalCallback (observe rd r)))
      | None => (c, [])
      end
  | SettleFires n rd =>
      match nth_error (settleTimeouts c) n with
      | Some r =>
          afterCallback
            {| rendered := rendered c;
               currentStateRef := currentStateRef c;
               validationInterval := validationInterval c;
               tickInterval := tickInterval c;
               settleTimeouts := removeNth n (settleTimeouts c) |}
            (effects (settleTimeoutCallback (observe rd r)))
      | None => (c, [])
      end
  | TickFires rd now =>
      match tickInterval c with
      | Some r =>
          afterCallback c
            (effects (tickIntervalCallback (observe rd r) (currentStateRef c) now))
      | None => (c, [])
      end
  end.

Fixpoint run (c : Component) (es : list Event) : Component * list Effect :=
  match es with
  | [] => (c, [])
  | e :: es' =>
      let (c1, t1) := step c e in
      let (c2, t2) := run c1 es' in
      (c2, t1 ++ t2)
  end.

Definition initialState : State :=
  {| wasScreenSharing := false; isAISpeaking := false;
     isUserSpeaking := false; lastUserSpeechTime := 0 |}.

(** The component before its first effects have run. *)
Definition unmounted (i : Inputs) : Component :=
  {| rendered := {| inputs := i; state := initialState |};
     currentStateRef :=
       {| ref_connected := false; ref_activeGame := None;
          ref_videoStream := None; ref_activeVideoStream := None;
          ref_isAISpeaking := false; ref_isUserSpeaking := false;
          ref_lastUserSpeechTime := 0 |};
     validationInterval := None;
     tickInterval := None;
     settleTimeouts := [] |}.

(** Mounting with inputs [i], then the events [es]. *)
Definition execution (i : Inputs) (es : list Event) : Component * list Effect :=
  let (c0, t0) := commit (unmounted i) {| inputs := i; state := initialState |} in
  let (c, t) := run c0 es in
  (c, t0 ++ t).

(* ================================================================== *)
(** * Measuring traces *)
(* ================================================================== *)

Definition isConsoleLog (e : Effect) : bool :=
  match e with ConsoleLog _ => true | _ => false end.

(** What is left of a trace once the console lines are dropped. *)
Definition observable (t : list Effect) : list Effect :=
  filter (fun e => negb (isConsoleLog e)) t.

Definition count (p : Effect -> bool) (t : list Effect) : nat :=
  List.length (filter p t).

Definition isStarted (e : Effect) : bool :=
  match e with DispatchEvent screenSharingStarted _ => true | _ => false end.

Definition isStopped (e : Effect) : bool :=
  match e with DispatchEvent screenSharingStopped _ => true | _ => false end.

Definition isStartedMessage (e : Effect) : bool :=
  match e with ClientSend (screenShareNotification _) => true | _ => false end.

Definition isHeartbeat (e : Effect) : bool :=
  match e with ClientSend (coachingInstruction _) => true | _ => false end.

Definition isSend (e : Effect) : bool :=
  match e with ClientSend _ => true | _ => false end.

Definition isTimer (e : Effect) : bool :=
  match e with
  | SetInterval _ _ | SetTimeout _ _ | RequestAnimationFrame _ => true
  | _ => false
  end.

Definition isFrame (e : Effect) : bool :=
  match e with SendRealtimeInput _ _ _ => true | _ => false end.

(** The value the validator returns. *)
Definition sharing (i : Inputs) : bool := value (validateScreenSharingState i).

(** The value of [wasScreenSharing] after the setters of a trace. *)
Fixpoint wasAfter (w : bool) (t : list Effect) : bool :=
  match t with
  | [] => w
  | SetWasScreenSharing b :: t' => wasAfter b t'
  | _ :: t' => wasAfter w t'
  end.

(** How often [wasScreenSharing] goes from true to false along a trace. *)
Fixpoint fallingEdges (w : bool) (t : list Effect) : nat :=
  match t with
  | [] => 0
  | SetWasScreenSharing b :: t' =>
      ((if w && negb b then 1 else 0) + fallingEdges b t')%nat
  | _ :: t' => fallingEdges w t'
  end.

(** The gate of the heartbeat as the specification writes it:
    [not (userSpeaking or aiSpeaking) and (now - lastUserSpeechAt) > QUIET_WINDOW]. *)
Definition QUIET_WINDOW : Z := 10000.

Definition spec_gate (current : CurrentState) (now : Z) : bool :=
  negb (ref_isUserSpeaking current || ref_isAISpeaking current)
  && (now - ref_lastUserSpeechTime current >? QUIET_WINDOW).

(** The in-tick validation of the heartbeat. *)
Definition anyAdapterStreaming (i : Inputs) : bool :=
  isStreaming (screenCapture i) || isStreaming (webcam i).

(** [Date.now()] never runs backwards along the events, starting from [t]. *)
Fixpoint clockMonotone (t : Z) (es : list Event) : Prop :=
  match es with
  | [] => True
  | InputVolume _ now :: es' => t <= now /\ clockMonotone now es'
  | TickFires _ now :: es' => t <= now /\ clockMonotone now es'
  | _ :: es' => clockMonotone t es'
  end.

(** A frame is degenerate when its width or its height is zero. *)
Definition degenerate (v : HTMLVideoElement) : Prop :=
  videoWidth v = 0%N \/ videoHeight v = 0%N.


(** The two console lines of one validator call. *)
Definition validationLog (b : bool) : list Effect :=
  [ConsoleLog "VALIDATION DEBUG";
   ConsoleLog (if b then "VALIDATION PASSED: Screen sharing is active"
               else "VALIDATION FAILED: No screen sharing detected")].

(** How often [wasScreenSharing] goes from false to true along a trace. *)
Fixpoint risingEdges (w : bool) (t : list Effect) : nat :=
  match t with
  | [] => 0
  | SetWasScreenSharing b :: t' =>
      ((if negb w && b then 1 else 0) + risingEdges b t')%nat
  | _ :: t' => risingEdges w t'
  end.

(** The last reading of the clock along the events, starting from [t]. *)
Fixpoint clockAfter (t : Z) (es : list Event) : Z :=
  match es with
  | [] => t
  | InputVolume _ now :: es' => clockAfter now es'
  | TickFires _ now :: es' => clockAfter now es'
  | _ :: es' => clockAfter t es'
  end.

(* ================================================================== *)
(** * Invariants of the component *)
(* ================================================================== *)

(** The state a render is left with once its effect body has run: only
    the flag can have moved, and only down. *)
Definition settled (r : Render) : State :=
  {| wasScreenSharing := wasScreenSharing r && sharing r;
     isAISpeaking := isAISpeaking r;
     isUserSpeaking := isUserSpeaking r;
     lastUserSpeechTime := lastUserSpeechTime r |}.

(** Between two events: the two intervals belong to the latest render
    (the tick interval exists exactly when that render validated), the ref
    mirrors the latest render, and that render has no stop left to report. *)
Record consistent (c : Component) : Prop := {
  validation_current : validationInterval c = Some (rendered c);
  tick_current :
    tickInterval c = if sharing (rendered c) then Some (rendered c) else None;
  ref_current : currentStateRef c = updateRef (rendered c);
  no_pending_stop :
    wasScreenSharing (rendered c) && negb (sharing (rendered c)) = false
}.

(** The settle re-check reads the adapter objects as the render that
    armed it received them: the case of adapter objects that are values of
    their render, as the results of React hooks are. *)
Definition settleReadsCaptured (e : Event) : Prop :=
  match e with
  | SettleFires _ rd => rd = AsCaptured
  | _ => True
  end.

(** Timers fire in the order the browser guarantees: a settle timeout
    (1000 ms) armed by a run of the effect fires before the first tick
    (10000 ms) of the interval that the same run registers after it. *)
Definition inTimerOrder (c : Component) (e : Event) : Prop :=
  match e with
  | TickFires _ _ => ~ In (rendered c) (settleTimeouts c)
  | _ => True
  end.

(** While the latest render validates and the flag is still false, the
    settle timeout of that render is pending. *)
Definition armed (c : Component) : Prop :=
  sharing (rendered c) = true -> wasScreenSharing (rendered c) = false ->
  In (rendered c) (settleTimeouts c).

(* ================================================================== *)
(** * Scenarios *)
(* ================================================================== *)

Definition off : UseMediaStreamResult := {| isStreaming := false; stream := None |}.

Definition on (m : MediaStream) : UseMediaStreamResult :=
  {| isStreaming := true; stream := Some m |}.

(** Connected, a game chosen, nothing captured yet. *)
Definition idle : Inputs :=
  {| webcam := off; screenCapture := off;
     videoStream := None; activeVideoStream := None;
     activeGame := Some EAFC; connected := true; muted := false |}.

(** The screen is being shared. *)
Definition screenShared : Inputs :=
  {| webcam := off; screenCapture := on 1%nat;
     videoStream := Some 1%nat; activeVideoStream := Some 1%nat;
     activeGame := Some EAFC; connected := true; muted := false |}.

(** The capture track has ended by itself: the adapter is back to off,
    the stream handles set by the last [changeStreams] are still there. *)
Definition externalOnly : Inputs :=
  {| webcam := off; screenCapture := off;
     videoStream := Some 1%nat; activeVideoStream := Some 1%nat;
     activeGame := Some EAFC; connected := true; muted := false |}.

(** An adapter that claims to stream while its handle is gone. *)
Definition staleHandle : Inputs :=
  {| webcam := off; screenCapture := {| isStreaming := true; stream := None |};
     videoStream := Some 1%nat; activeVideoStream := None;
     activeGame := Some EAFC; connected := true; muted := false |}.

(** The screen is shared with the microphone muted. *)
Definition screenSharedMuted : Inputs :=
  {| webcam := off; screenCapture := on 1%nat;
     videoStream := Some 1%nat; activeVideoStream := Some 1%nat;
     activeGame := Some EAFC; connected := true; muted := true |}.

(** Sharing has ended while the session is disconnected. *)
Definition idleDisconnected : Inputs :=
  {| webcam := off; screenCapture := off;
     videoStream := None; activeVideoStream := None;
     activeGame := Some EAFC; connected := false; muted := false |}.

(** The adapter streams, and no stream handle has been set from outside. *)
Definition captureOnly : Inputs :=
  {| webcam := off; screenCapture := on 1%nat;
     videoStream := None; activeVideoStream := None;
     activeGame := Some EAFC; connected := true; muted := false |}.

(** The adapter of [captureOnly] once its handle has died. *)
Definition deadHandle : UseMediaStreamResult :=
  {| isStreaming := true; stream := None |}.

Definition active : State :=
  {| wasScreenSharing := true; isAISpeaking := false;
     isUserSpeaking := false; lastUserSpeechTime := 0 |}.

(** Nobody speaks, and the user last began to speak at time 5000. *)
Definition silentSince5000 : CurrentState :=
  {| ref_connected := true; ref_activeGame := Some EAFC;
     ref_videoStream := Some 1%nat; ref_activeVideoStream := Some 1%nat;
     ref_isAISpeaking := false; ref_isUserSpeaking := false;
     ref_lastUserSpeechTime := 5000 |}.

(* ================================================================== *)
(** * The rest of the tray *)
(* ================================================================== *)

(** [s.indexOf(c)]: the position of the first [c] in [s], or -1. *)
Fixpoint indexOf (c : Ascii.ascii) (s : string) : Z :=
  match s with
  | EmptyString => -1
  | String a s' =>
      if Ascii.eqb a c then 0
      else let i := indexOf c s' in if i <? 0 then -1 else i + 1
  end.

Fixpoint drop (n : nat) (s : string) : string :=
  match n, s with
  | O, _ => s
  | _, EmptyString => EmptyString
  | S n', String _ s' => drop n' s'
  end.

(** [s.slice(start, Infinity)]: a negative [start] counts from the end,
    and the result runs to the end of [s]. *)
Definition slice (start : Z) (s : string) : string :=
  let len := Z.of_nat (String.length s) in
  let from := if start <? 0 then Z.max (len + start) 0 else Z.min start len in
  drop (Z.to_nat from) s.

(** The character [","]. *)
Definition comma : Ascii.ascii :=
  match ","%string with String c _ => c | EmptyString => Ascii.zero end.

(** [base64.slice(base64.indexOf(",") + 1, Infinity)] in [sendVideoFrame]:
    what is sent of the data URL that [canvas.toDataURL] returns. *)
Definition frameData (base64 : string) : string :=
  slice (indexOf comma base64 + 1) base64.







(** [Math.min] and [Math.max] on two numbers: NaN if either is NaN; of two
    zeros, the negative one is the smaller. *)
Definition Math_min (x y : float) : float :=
  if PrimFloat.is_nan x || PrimFloat.is_nan y then PrimFloat.nan
  else if PrimFloat.ltb y x then y
  else if PrimFloat.ltb x y then x
  else if PrimFloat.get_sign x then x else y.

Definition Math_max (x y : float) : float :=
  if PrimFloat.is_nan x || PrimFloat.is_nan y then PrimFloat.nan
  else if PrimFloat.ltb y x then x
  else if PrimFloat.ltb x y then y
  else if PrimFloat.get_sign x then y else x.

(** [Math.max(5, Math.min(inVolume * 200, 8))]: the number of pixels the
    effect on [[inVolume]] writes into the [--volume] style property. *)
Definition volumeStyle (inVolume : float) : float :=
  Math_max 5 (Math_min (PrimFloat.mul inVolume 200) 8).

(** The [onClick] of a [MediaStreamButton]: [stop] while streaming,
    nothing while disabled, [start] otherwise. *)
Definition MediaStreamButton {H : Type}
    (isStreaming disabled : bool) (start stop : H) : option H :=
  if isStreaming then Some stop
  else if disabled then None
  else Some start.

Definition adapter (k : SourceKind) (i : Inputs) : UseMediaStreamResult :=
  match k with Webcam => webcam i | Screen => screenCapture i end.

(** The two media buttons of the tray: [start={changeStreams(msr)}],
    [stop={changeStreams()}], [disabled={!activeGame}].  The handler is
    given by the argument of [changeStreams]. *)
Definition mediaButton (k : SourceKind) (i : Inputs) : option (option SourceKind) :=
  MediaStreamButton (isStreaming (adapter k i)) (negb (truthy (activeGame i)))
    (Some k) None.

(* ================================================================== *)
(** * The application shell *)
(* ================================================================== *)

Definition GameName_eqb (a b : GameName) : bool :=
  match a, b with
  | EAFC, EAFC | LeagueOfLegends, LeagueOfLegends
  | StreetFighter6, StreetFighter6 => true
  | _, _ => false
  end.

(** [Object.keys(gameInfo)] *)
Definition gameInfoKeys : list GameName := [EAFC; LeagueOfLegends; StreetFighter6].

Inductive AppEffect :=
| SetActiveGame (game : Game)
| DispatchGameSelected (game : Game).

Definition handleGameSelect (game : Game) : list AppEffect :=
  [SetActiveGame game; DispatchGameSelected game].

(** [activeGame === game] on the card of [game]. *)
Definition cardActive (activeGame : Game) (game : GameName) : bool :=
  match activeGame with
  | Some g => GameName_eqb g game
  | None => false
  end.

(** What [AppContent] puts in the main area: the connection prompt, the
    game selector, and whether the video element is hidden. *)
Record AppView := {
  connectionPrompt : bool;
  gameSelector : bool;
  videoHidden : bool
}.

Definition AppContent
    (connected : bool) (videoStream : option MediaStream) (videoRefCurrent : bool)
  : AppView :=
  {| connectionPrompt := negb connected;
     gameSelector := connected && negb (truthy videoStream);
     videoHidden := negb videoRefCurrent || negb (truthy videoStream) |}.

(** What the user and the environment can do to the shell and its tray.
    [started] is how [start()] ends if the click calls it. *)
Inductive Gesture :=
| ClickCard (game : GameName)
| ClickMedia (k : SourceKind) (started : option MediaStream)
| ClickMic
| ConnectionChanges (connected : bool)
| AdaptersChange (webcamNow screenCaptureNow : UseMediaStreamResult).

(** [setActiveVideoStream] is the tray's own setter;
    [onVideoStreamChange] is the shell's [setVideoStream]. *)
Definition applyTray (i : Inputs) (e : Effect) : Inputs :=
  match e with
  | SetActiveVideoStream s =>
      {| webcam := webcam i; screenCapture := screenCapture i;
         videoStream := videoStream i; activeVideoStream := s;
         activeGame := activeGame i; connected := connected i;
         muted := muted i |}
  | OnVideoStreamChange s =>
      {| webcam := webcam i; screenCapture := screenCapture i;
         videoStream := s; activeVideoStream := activeVideoStream i;
         activeGame := activeGame i; connected := connected i;
         muted := muted i |}
  | _ => i
  end.

Definition applyApp (i : Inputs) (e : AppEffect) : Inputs :=
  match e with
  | SetActiveGame g =>
      {| webcam := webcam i; screenCapture := screenCapture i;
         videoStream := videoStream i;
         activeVideoStream := activeVideoStream i;
         activeGame := g; connected := connected i; muted := muted i |}
  | DispatchGameSelected _ => i
  end.

(** A gesture acts through the handler of the element it lands on, when
    that element is rendered and has one. *)
Definition uiStep (i : Inputs) (g : Gesture) : Inputs * list Effect :=
  match g with
  | ClickCard game =>
      if gameSelector (AppContent (connected i) (videoStream i) true)
      then (fold_left applyApp (handleGameSelect (Some game)) i, [])
      else (i, [])
  | ClickMedia k started =>
      match mediaButton k i with
      | Some next =>
          let t := effects (changeStreams next started) in
          (fold_left applyTray t i, t)
      | None => (i, [])
      end
  | ClickMic =>
      ({| webcam := webcam i; screenCapture := screenCapture i;
          videoStream := videoStream i;
          activeVideoStream := activeVideoStream i;
          activeGame := activeGame i; connected := connected i;
          muted := negb (muted i) |}, [])
  | ConnectionChanges b =>
      ({| webcam := webcam i; screenCapture := screenCapture i;
          videoStream := videoStream i;
          activeVideoStream := activeVideoStream i;
          activeGame := activeGame i; connected := b; muted := muted i |}, [])
  | AdaptersChange w s =>
      ({| webcam := w; screenCapture := s;
          videoStream := videoStream i;
          activeVideoStream := activeVideoStream i;
          activeGame := activeGame i; connected := connected i;
          muted := muted i |}, [])
  end.

Fixpoint uiRun (i : Inputs) (gs : list Gesture) : Inputs * list Effect :=
  match gs with
  | [] => (i, [])
  | g :: gs' =>
      let (i1, t1) := uiStep i g in
      let (i2, t2) := uiRun i1 gs' in
      (i2, t1 ++ t2)
  end.

(** The shell as it mounts: not connected, no game, no stream. *)
Definition freshShell : Inputs :=
  {| webcam := off; screenCapture := off;
     videoStream := None; activeVideoStream := None;
     activeGame := None; connected := false; muted := false |}.

Definition isStart (e : Effect) : bool :=
  match e with Start _ => true | _ => false end.

Definition isStop (e : Effect) : bool :=
  match e with Stop _ => true | _ => false end.

Definition isStreamSetter (e : Effect) : bool :=
  match e with
  | SetActiveVideoStream _ | OnVideoStreamChange _ => true
  | _ => false
  end.

(* ================================================================== *)
(** * More measures of traces *)
(* ================================================================== *)

Definition isSetInterval (cb : TimerCallback) (e : Effect) : bool :=
  match e with SetInterval cb' _ => TimerCallback_eqb cb cb' | _ => false end.

Definition isClearInterval (cb : TimerCallback) (e : Effect) : bool :=
  match e with ClearInterval cb' => TimerCallback_eqb cb cb' | _ => false end.

Definition isSetTimeout (cb : TimerCallback) (e : Effect) : bool :=
  match e with SetTimeout cb' _ => TimerCallback_eqb cb cb' | _ => false end.

Definition isClearTimeout (e : Effect) : bool :=
  match e with ClearTimeout _ => true | _ => false end.

Definition isFlagRaised (e : Effect) : bool :=
  match e with SetWasScreenSharing true => true | _ => false end.

Definition isDispatch (e : Effect) : bool :=
  match e with DispatchEvent _ _ => true | _ => false end.

Definition isStateSetter (e : Effect) : bool :=
  match e with
  | SetWasScreenSharing _ | SetIsAISpeaking _ | SetIsUserSpeaking _
  | SetLastUserSpeechTime _ => true
  | _ => false
  end.

(** Every pending settle timeout was armed by a render that validated
    while the flag was false. *)
Definition pendingOnRisingEdge (c : Component) : Prop :=
  Forall (fun r : Render => sharing r = true /\ wasScreenSharing r = false)
    (settleTimeouts c).

(** The utterance goes on: an input sample, if the event is one, is above
    the threshold. *)
Definition speechGoesOn (e : Event) : Prop :=
  match e with
  | InputVolume inVolume _ => PrimFloat.ltb 0.015 inVolume = true
  | _ => True
  end.

(** The timer calls that keep or cancel a registration. *)
Definition isIntervalOp (e : Effect) : bool :=
  match e with
  | SetInterval _ _ | ClearInterval _ | ClearTimeout _ => true
  | _ => false
  end.

(* ================================================================== *)
(** * Results: the callbacks *)
(* ================================================================== *)

Lemma truthy_true {A} (o : option A) : truthy o = true <-> o <> None.
Proof. destruct o; simpl; split; congruence. Qed.

Lemma validate_eq (i : Inputs) :
  validateScreenSharingState i = (sharing i, validationLog (sharing i)).
Proof.
  unfold sharing, validateScreenSharingState, value; simpl.
  destruct (_ || _ || _); reflexivity.
Qed.

Lemma sharing_eq (i : Inputs) :
  sharing i =
    (isStreaming (screenCapture i) && truthy (stream (screenCapture i))
     || isStreaming (webcam i) && truthy (stream (webcam i))
     || (truthy (videoStream i) || truthy (activeVideoStream i))).
Proof.
  unfold sharing, validateScreenSharingState, value; simpl.
  destruct (_ || _ || _); reflexivity.
Qed.

(** C5.  The session validator returns true exactly when some capture
    source reports [isStreaming] with a non-null [stream], or some
    externally supplied stream handle is non-null.  It is a predicate of
    its inputs alone: besides returning, it only writes diagnostic lines
    to the console; it sets no state, sends nothing, stops nothing and
    registers no timer. *)
Theorem validateScreenSharingState_spec (i : Inputs) :
  (value (validateScreenSharingState i) = true <->
     (exists src, In src (videoStreams i) /\
                  isStreaming src = true /\ stream src <> None)
     \/ (exists h, In h (externalStreams i) /\ h <> None))
  /\ observable (effects (validateScreenSharingState i)) = [].
Proof.
  split.
  - fold (sharing i). rewrite sharing_eq.
    unfold videoStreams, externalStreams.
    rewrite !orb_true_iff, !andb_true_iff, !truthy_true.
    split.
    + intros [[[Hs Hn] | [Hs Hn]] | [Hn | Hn]].
      * left. exists (screenCapture i). simpl. tauto.
      * left. exists (webcam i). simpl. tauto.
      * right. exists (videoStream i). simpl. tauto.
      * right. exists (activeVideoStream i). simpl. tauto.
    + intros [[src [Hin H]] | [h [Hin H]]].
      * destruct Hin as [<- | [<- | []]]; tauto.
      * destruct Hin as [<- | [<- | []]]; tauto.
  - rewrite validate_eq. reflexivity.
Qed.

(* ------------------------------------------------------------------ *)
(** ** Heartbeat tick *)

(** All a tick leaves behind, console lines apart. *)
Lemma tick_observable (r : Render) (current : CurrentState) (now : Z) :
  observable (effects (tickIntervalCallback r current now)) =
    if anyAdapterStreaming r && spec_gate current now
    then [ClientSend (coachingInstruction (activeGame r))]
    else [].
Proof.
  unfold tickIntervalCallback, anyAdapterStreaming, spec_gate, QUIET_WINDOW.
  destruct (isStreaming (screenCapture r)), (isStreaming (webcam r)),
    (ref_isAISpeaking current), (ref_isUserSpeaking current),
    (now - ref_lastUserSpeechTime current >? 10000); reflexivity.
Qed.

Lemma tick_flags_only (r r' : Render) (current : CurrentState) (now : Z) :
  isStreaming (screenCapture r) = isStreaming (screenCapture r') ->
  isStreaming (webcam r) = isStreaming (webcam r') ->
  activeGame r = activeGame r' ->
  effects (tickIntervalCallback r current now)
  = effects (tickIntervalCallback r' current now).
Proof.
  unfold tickIntervalCallback. intros -> -> ->. reflexivity.
Qed.

Lemma gate_true (current : CurrentState) (now : Z) :
  spec_gate current now = true <->
  ref_isUserSpeaking current = false /\ ref_isAISpeaking current = false
  /\ now - ref_lastUserSpeechTime current > QUIET_WINDOW.
Proof.
  unfold spec_gate. rewrite andb_true_iff, negb_true_iff, orb_false_iff, Z.gtb_gt.
  tauto.
Qed.

Lemma count_observable (p : Effect -> bool) (t : list Effect) :
  (forall line, p (ConsoleLog line) = false) ->
  count p (observable t) = count p t.
Proof.
  intros Hp. unfold count, observable.
  induction t as [| e t IH]; [reflexivity |].
  destruct e; simpl; rewrite ?Hp;
    try (match goal with |- context [if ?b then _ else _] => destruct b end);
    simpl; rewrite ?IH; reflexivity.
Qed.

Lemma In_observable (e : Effect) (t : list Effect) :
  isConsoleLog e = false -> (In e (observable t) <-> In e t).
Proof.
  intros He. unfold observable. rewrite filter_In, He. simpl. tauto.
Qed.


(** C3, as stated, fails.  The screen is shared and the session settles;
    then the capture track ends by itself, which turns the adapter off and
    leaves the stream handles in place.  The session is still active (the
    validator passes on the handles, [wasScreenSharing] is true, the tick
    interval is registered), nobody speaks and the last user speech is far
    outside the quiet window, yet the tick sends nothing, because no
    adapter reports [isStreaming]. *)
Lemma heartbeat_gate_not_sufficient :
  let c := fst (execution idle [Rerender screenShared; SettleFires 0 AsCaptured;
                                Rerender externalOnly]) in
  wasScreenSharing (rendered c) = true
  /\ sharing (rendered c) = true
  /\ tickInterval c = Some (rendered c)
  /\ spec_gate (currentStateRef c) 20000 = true
  /\ count isSend (snd (step c (TickFires AsCaptured 20000))) = 0%nat
  /\ count isSend (snd (step c (TickFires (Live off off) 20000))) = 0%nat.
Proof. repeat split. Qed.

(** C9.  A tick on which neither adapter reports [isStreaming] leaves
    nothing behind, whatever the external stream handles are; the tick
    looks at the two [isStreaming] flags and at no stream handle; and with
    a flag set the tick goes on to the gate, whatever that adapter's
    [stream] is. *)
Theorem heartbeat_in_tick_guard (r : Render) (current : CurrentState) (now : Z) :
  (isStreaming (screenCapture r) = false -> isStreaming (webcam r) = false ->
   observable (effects (tickIntervalCallback r current now)) = [])
  /\ (forall r' : Render,
        isStreaming (screenCapture r') = isStreaming (screenCapture r) ->
        isStreaming (webcam r') = isStreaming (webcam r) ->
        activeGame r' = activeGame r ->
        effects (tickIntervalCallback r' current now)
        = effects (tickIntervalCallback r current now))
  /\ (isStreaming (screenCapture r) = true \/ isStreaming (webcam r) = true ->
      spec_gate current now = true ->
      observable (effects (tickIntervalCallback r current now))
      = [ClientSend (coachingInstruction (activeGame r))]).
Proof.
  split; [| split].
  - intros H1 H2. rewrite tick_observable. unfold anyAdapterStreaming.
    rewrite H1, H2. reflexivity.
  - intros r' H1 H2 H3. apply tick_flags_only; assumption.
  - intros H G. rewrite tick_observable, G. unfold anyAdapterStreaming.
    destruct H as [-> | ->]; rewrite ?orb_true_r; reflexivity.
Qed.

Lemma heartbeat_in_tick_guard_witness :
  (sharing externalOnly = true
   /\ observable
        (effects (tickIntervalCallback
                    {| inputs := externalOnly; state := active |}
                    silentSince5000 20000)) = [])
  /\ effects (tickIntervalCallback
                {| inputs := staleHandle; state := active |}
                silentSince5000 20000)
     = effects (tickIntervalCallback
                  {| inputs := screenShared; state := active |}
                  silentSince5000 20000)
  /\ (stream (screenCapture staleHandle) = None
      /\ observable
           (effects (tickIntervalCallback
                       {| inputs := staleHandle; state := active |}
                       silentSince5000 20000))
         = [ClientSend (coachingInstruction (Some EAFC))]).
Proof.
  split; [| split].
  - split; [reflexivity |].
    apply (proj1 (heartbeat_in_tick_guard
                    {| inputs := externalOnly; state := active |}
                    silentSince5000 20000)); reflexivity.
  - apply (proj1 (proj2 (heartbeat_in_tick_guard
                           {| inputs := screenShared; state := active |}
                           silentSince5000 20000))); reflexivity.
  - split; [reflexivity |].
    apply (proj2 (proj2 (heartbeat_in_tick_guard
                           {| inputs := staleHandle; state := active |}
                           silentSince5000 20000)));
      [left; reflexivity | reflexivity].
Defined.

(* ------------------------------------------------------------------ *)
(** ** Transition paths *)

(** The started path: the settle timeout. *)
Lemma settle_observable (r : Render) :
  observable (effects (settleTimeoutCallback r)) =
    if sharing r then
      DispatchEvent screenSharingStarted (activeGame r)
      :: SetWasScreenSharing true
      :: (if mayNotify r
          then [ClientSend (screenShareNotification (activeGame r))] else [])
    else [].
Proof.
  unfold settleTimeoutCallback. rewrite validate_eq.
  destruct (sharing r), (mayNotify r); reflexivity.
Qed.

(** The forced-stop path: the validation interval. *)
Lemma validation_observable (r : Render) :
  observable (effects (validationIntervalCallback r)) =
    if wasScreenSharing r && negb (sharing r) then
      SetWasScreenSharing false
      :: (if isStreaming (screenCapture r) then [Stop Screen] else [])
      ++ (if isStreaming (webcam r) then [Stop Webcam] else [])
      ++ DispatchEvent screenSharingStopped (activeGame r)
      :: (if mayNotify r then [ClientSend forcedStopNotification] else [])
    else [].
Proof.
  unfold validationIntervalCallback. rewrite validate_eq.
  destruct (sharing r), (wasScreenSharing r), (mayNotify r),
    (isStreaming (screenCapture r)), (isStreaming (webcam r)); reflexivity.
Qed.

(** The effect body, with the stopped path in its middle. *)
Lemma effect_observable (r : Render) :
  observable (effects (screenSharingEffect r)) =
    SetInterval validationCallback 5000
    :: (if sharing r && negb (wasScreenSharing r) then
          [SetTimeout settleCallback 1000]
        else if negb (sharing r) && wasScreenSharing r then
          DispatchEvent screenSharingStopped (activeGame r)
          :: SetWasScreenSharing false
          :: (if mayNotify r
              then [ClientSend screenShareStoppedNotification] else [])
        else [])
    ++ (if sharing r then [SetInterval tickCallback 10000] else []).
Proof.
  unfold screenSharingEffect. rewrite validate_eq.
  destruct (sharing r), (wasScreenSharing r), (mayNotify r); reflexivity.
Qed.

Lemma mayNotify_true (i : Inputs) :
  mayNotify i = true <-> connected i = true /\ muted i = false.
Proof.
  unfold mayNotify. rewrite andb_true_iff, negb_true_iff. tauto.
Qed.

(** The guard of each path, as its closure sees it.  On each sharing edge
    the previous-state flag is written whether or not a message can go
    out, and the transition message is handed to [client.send] exactly
    when the render whose closure runs is connected and not muted.  Nothing is kept for later: the started path registers no
    timer, the stopped path only the two intervals every run of the effect
    registers, and once the flag has been written no run of the effect
    takes that path again (with the flag false the effect sends nothing,
    with the flag true it arms no settle timeout). *)
Theorem transition_message_guard (r : Render) :
  (* started *)
  (sharing r = true ->
   let t := effects (settleTimeoutCallback r) in
   In (SetWasScreenSharing true) t
   /\ (forall m, In (ClientSend m) t <->
         m = screenShareNotification (activeGame r)
         /\ connected r = true /\ muted r = false)
   /\ count isTimer t = 0%nat)
  (* stopped *)
  /\ (sharing r = false -> wasScreenSharing r = true ->
      let t := effects (screenSharingEffect r) in
      In (SetWasScreenSharing false) t
      /\ (forall m, In (ClientSend m) t <->
            m = screenShareStoppedNotification
            /\ connected r = true /\ muted r = false)
      /\ filter isTimer t = [SetInterval validationCallback 5000])
  (* stopped by the backstop *)
  /\ (sharing r = false -> wasScreenSharing r = true ->
      let t := effects (validationIntervalCallback r) in
      In (SetWasScreenSharing false) t
      /\ (forall m, In (ClientSend m) t <->
            m = forcedStopNotification
            /\ connected r = true /\ muted r = false)
      /\ count isTimer t = 0%nat)
  (* no second attempt *)
  /\ (wasScreenSharing r = false ->
      count isSend (effects (screenSharingEffect r)) = 0%nat
      /\ count isSend (effects (validationIntervalCallback r)) = 0%nat)
  /\ (wasScreenSharing r = true ->
      registers settleCallback (effects (screenSharingEffect r)) = false).
Proof.
  assert (Hsend : forall (m m0 : OutboundText) (pre : list Effect),
             (forall e, In e pre -> isSend e = false) ->
             (In (ClientSend m)
                (pre ++ (if mayNotify r then [ClientSend m0] else [])) <->
              m = m0 /\ connected r = true /\ muted r = false)).
  { intros m m0 pre Hpre. rewrite in_app_iff. split.
    - intros [Hin | Hin]; [apply Hpre in Hin; discriminate |].
      destruct (mayNotify r) eqn:E; simpl in Hin; [| tauto].
      apply mayNotify_true in E. intuition congruence.
    - intros (-> & Hc & Hm).
      rewrite (proj2 (mayNotify_true r) (conj Hc Hm)). simpl. auto. }
  split; [| split; [| split; [| split]]].
  - intros Hs t. subst t. split; [| split].
    + rewrite <- In_observable by reflexivity.
      rewrite settle_observable, Hs. simpl. auto.
    + intros m. rewrite <- In_observable by reflexivity.
      rewrite settle_observable, Hs.
      apply (Hsend m _ [_; _]).
      intros e [<- | [<- | []]]; reflexivity.
    + rewrite <- count_observable by reflexivity.
      rewrite settle_observable, Hs. destruct (mayNotify r); reflexivity.
  - intros Hs Hw t. subst t. split; [| split].
    + rewrite <- In_observable by reflexivity.
      rewrite effect_observable, Hs, Hw. simpl. auto.
    + intros m. rewrite <- In_observable by reflexivity.
      rewrite effect_observable, Hs, Hw. simpl.
      rewrite app_nil_r.
      apply (Hsend m _ [_; _; _]).
      intros e [<- | [<- | [<- | []]]]; reflexivity.
    + unfold screenSharingEffect. rewrite validate_eq, Hs, Hw.
      destruct (mayNotify r); reflexivity.
  - intros Hs Hw t. subst t. split; [| split].
    + rewrite <- In_observable by reflexivity.
      rewrite validation_observable, Hs, Hw. simpl. auto.
    + intros m. rewrite <- In_observable by reflexivity.
      rewrite validation_observable, Hs, Hw. simpl.
      destruct (isStreaming (screenCapture r)), (isStreaming (webcam r)); simpl.
      * apply (Hsend m _ [_; _; _; _]).
        intros e [<- | [<- | [<- | [<- | []]]]]; reflexivity.
      * apply (Hsend m _ [_; _; _]).
        intros e [<- | [<- | [<- | []]]]; reflexivity.
      * apply (Hsend m _ [_; _; _]).
        intros e [<- | [<- | [<- | []]]]; reflexivity.
      * apply (Hsend m _ [_; _]).
        intros e [<- | [<- | []]]; reflexivity.
    + rewrite <- count_observable by reflexivity.
      rewrite validation_observable, Hs, Hw.
      destruct (mayNotify r), (isStreaming (screenCapture r)),
        (isStreaming (webcam r)); reflexivity.
  - intros Hw. split.
    + rewrite <- count_observable by reflexivity.
      rewrite effect_observable, Hw.
      destruct (sharing r); reflexivity.
    + rewrite <- count_observable by reflexivity.
      rewrite validation_observable, Hw. reflexivity.
  - intros Hw. unfold screenSharingEffect. rewrite validate_eq, Hw.
    destruct (sharing r), (mayNotify r); reflexivity.
Qed.

Lemma transition_message_guard_witness :
  (* started while muted *)
  (In (SetWasScreenSharing true)
      (effects (settleTimeoutCallback
                  {| inputs := screenSharedMuted; state := initialState |}))
   /\ ~ In (ClientSend (screenShareNotification (Some EAFC)))
          (effects (settleTimeoutCallback
                      {| inputs := screenSharedMuted; state := initialState |})))
  (* stopped while disconnected *)
  /\ (In (SetWasScreenSharing false)
         (effects (screenSharingEffect
                     {| inputs := idleDisconnected; state := active |}))
      /\ ~ In (ClientSend screenShareStoppedNotification)
             (effects (screenSharingEffect
                         {| inputs := idleDisconnected; state := active |})))
  (* forced stop while connected and not muted *)
  /\ In (ClientSend forcedStopNotification)
        (effects (validationIntervalCallback
                    {| inputs := idle; state := active |}))
  (* afterwards *)
  /\ count isSend
       (effects (screenSharingEffect
                   {| inputs := idle; state := initialState |})) = 0%nat
  /\ registers settleCallback
       (effects (screenSharingEffect
                   {| inputs := screenShared; state := active |})) = false.
Proof.
  split; [| split; [| split; [| split]]].
  - pose proof (proj1 (transition_message_guard
                         {| inputs := screenSharedMuted; state := initialState |})
                  eq_refl) as (Hset & Hsend & _).
    split; [exact Hset |].
    intros Hin. apply Hsend in Hin. destruct Hin as (_ & _ & Hm).
    discriminate Hm.
  - pose proof (proj1 (proj2 (transition_message_guard
                                {| inputs := idleDisconnected; state := active |}))
                  eq_refl eq_refl) as (Hset & Hsend & _).
    split; [exact Hset |].
    intros Hin. apply Hsend in Hin. destruct Hin as (_ & Hc & _).
    discriminate Hc.
  - pose proof (proj1 (proj2 (proj2 (transition_message_guard
                                       {| inputs := idle; state := active |})))
                  eq_refl eq_refl) as (_ & Hsend & _).
    apply Hsend. repeat split.
  - apply (proj1 (proj2 (proj2 (proj2 (transition_message_guard
                                         {| inputs := idle;
                                            state := initialState |}))))
             eq_refl).
  - apply (proj2 (proj2 (proj2 (proj2 (transition_message_guard
                                         {| inputs := screenShared;
                                            state := active |}))))
             eq_refl).
Defined.

(* ------------------------------------------------------------------ *)
(** ** Frame sampler *)

Lemma sendVideoFrame_observable
    (v : HTMLVideoElement) (canvas connected : bool) :
  observable (effects (sendVideoFrame (Some v) canvas connected)) =
    if canvas then
      (if (0 <? quarter (videoWidth v) + quarter (videoHeight v))%N
       then [DrawImage (quarter (videoWidth v)) (quarter (videoHeight v));
             SendRealtimeInput "image/jpeg"
               (quarter (videoWidth v)) (quarter (videoHeight v))]
       else [])
      ++ (if connected then [SetTimeout sendVideoFrameCallback 2000] else [])
    else [].
Proof.
  unfold sendVideoFrame.
  destruct canvas; [| reflexivity].
  destruct (0 <? _)%N, connected; reflexivity.
Qed.

Lemma quarter_zero (n : N) : quarter n = 0%N <-> (n < 4)%N.
Proof.
  unfold quarter. split.
  - intros H. apply N.div_small_iff in H; lia.
  - intros H. apply N.div_small. exact H.
Qed.

(** The sampler tests the sum of the two canvas dimensions.  Were a frame
    of width 640 and height 0 ever reported, it would be drawn and
    forwarded; a frame of 640 by 2, whose quarter-size canvas has height
    0, is. *)
Lemma degenerate_frame_forwarded :
  (degenerate {| videoWidth := 640; videoHeight := 0 |}
   /\ filter isFrame
        (effects (sendVideoFrame
                    (Some {| videoWidth := 640; videoHeight := 0 |}) true true))
      = [SendRealtimeInput "image/jpeg" 160 0])
  /\ (quarter 2 = 0%N
      /\ filter isFrame
           (effects (sendVideoFrame
                       (Some {| videoWidth := 640; videoHeight := 2 |}) true true))
         = [SendRealtimeInput "image/jpeg" 160 0]).
Proof. split; (split; [try right; reflexivity | reflexivity]). Qed.

(** The exact condition.  A sampled frame whose width and height are both
    zero is skipped without a trace: nothing is drawn and nothing is
    forwarded to the realtime media channel; the sampler only re-arms its
    timer while connected.  More exactly, a frame is forwarded unless both
    of its dimensions are below 4, that is unless the quarter-size canvas
    is 0x0. *)
Theorem empty_frame_skipped (v : HTMLVideoElement) (canvas connected : bool) :
  (videoWidth v = 0%N /\ videoHeight v = 0%N ->
   observable (effects (sendVideoFrame (Some v) canvas connected))
   = if canvas && connected
     then [SetTimeout sendVideoFrameCallback 2000] else [])
  /\ (count isFrame (effects (sendVideoFrame (Some v) true connected)) = 0%nat
      <-> (videoWidth v < 4)%N /\ (videoHeight v < 4)%N).
Proof.
  split.
  - intros [Hw Hh]. rewrite sendVideoFrame_observable, Hw, Hh.
    destruct canvas, connected; reflexivity.
  - rewrite <- count_observable by reflexivity.
    rewrite sendVideoFrame_observable.
    rewrite <- !quarter_zero.
    destruct (0 <? _)%N eqn:E.
    + apply N.ltb_lt in E. destruct connected; simpl; split; try discriminate; lia.
    + apply N.ltb_ge in E. destruct connected; simpl; split; trivial; lia.
Qed.

Lemma empty_frame_skipped_witness :
  observable
    (effects (sendVideoFrame (Some {| videoWidth := 0; videoHeight := 0 |})
                true true))
  = [SetTimeout sendVideoFrameCallback 2000].
Proof.
  apply (proj1 (empty_frame_skipped {| videoWidth := 0; videoHeight := 0 |}
                  true true)).
  split; reflexivity.
Defined.



(* ================================================================== *)
(** * Results: traces *)
(* ================================================================== *)

Lemma effects_bind {A B} (m : Action A) (k : A -> Action B) :
  effects (bind m k) = effects m ++ effects (k (value m)).
Proof.
  unfold effects, value, bind. destruct m as [a t]. simpl.
  destruct (k a). reflexivity.
Qed.

Lemma count_app (p : Effect -> bool) (t1 t2 : list Effect) :
  count p (t1 ++ t2) = (count p t1 + count p t2)%nat.
Proof. unfold count. rewrite filter_app, length_app. reflexivity. Qed.

Lemma observable_app (t1 t2 : list Effect) :
  observable (t1 ++ t2) = observable t1 ++ observable t2.
Proof. apply filter_app. Qed.

Lemma wasAfter_app (w : bool) (t1 t2 : list Effect) :
  wasAfter w (t1 ++ t2) = wasAfter (wasAfter w t1) t2.
Proof.
  revert w. induction t1 as [| e t1 IH]; intros w; [reflexivity |].
  destruct e; simpl; apply IH.
Qed.

Lemma fallingEdges_app (w : bool) (t1 t2 : list Effect) :
  fallingEdges w (t1 ++ t2)
  = (fallingEdges w t1 + fallingEdges (wasAfter w t1) t2)%nat.
Proof.
  revert w. induction t1 as [| e t1 IH]; intros w; [reflexivity |].
  destruct e; simpl; rewrite ?IH; try reflexivity.
  apply Nat.add_assoc.
Qed.

Lemma wasAfter_observable (w : bool) (t : list Effect) :
  wasAfter w (observable t) = wasAfter w t.
Proof.
  revert w. induction t as [| e t IH]; intros w; [reflexivity |].
  destruct e; simpl; apply IH.
Qed.

Lemma fallingEdges_observable (w : bool) (t : list Effect) :
  fallingEdges w (observable t) = fallingEdges w t.
Proof.
  revert w. induction t as [| e t IH]; intros w; [reflexivity |].
  destruct e; simpl; rewrite ?IH; reflexivity.
Qed.

Lemma reduce_observable (t : list Effect) (s : State) :
  reduce (observable t) s = reduce t s.
Proof.
  unfold reduce. revert s. induction t as [| e t IH]; intros s; [reflexivity |].
  destruct e; simpl; apply IH.
Qed.

Lemma reduce_app (t1 t2 : list Effect) (s : State) :
  reduce (t1 ++ t2) s = reduce t2 (reduce t1 s).
Proof. apply fold_left_app. Qed.

Lemma registers_observable (cb : TimerCallback) (t : list Effect) :
  registers cb (observable t) = registers cb t.
Proof.
  unfold registers. induction t as [| e t IH]; [reflexivity |].
  destruct e; simpl; rewrite ?IH; reflexivity.
Qed.

Lemma reduce_was (t : list Effect) (s : State) :
  wasScreenSharing (reduce t s) = wasAfter (wasScreenSharing s) t.
Proof.
  unfold reduce. revert s. induction t as [| e t IH]; intros s; [reflexivity |].
  destruct e; simpl; rewrite IH; reflexivity.
Qed.

Lemma State_eqb_eq (a b : State) : State_eqb a b = true <-> a = b.
Proof.
  unfold State_eqb. destruct a, b; simpl.
  rewrite !andb_true_iff, !eqb_true_iff, Z.eqb_eq.
  split; [intros [[[-> ->] ->] ->]; reflexivity | intros H; inversion H; auto].
Qed.

Lemma State_eqb_refl (a : State) : State_eqb a a = true.
Proof. apply State_eqb_eq. reflexivity. Qed.

Lemma observe_state (rd : Reads) (r : Render) : state (observe rd r) = state r.
Proof. destruct rd; reflexivity. Qed.

Lemma observe_game (rd : Reads) (r : Render) :
  activeGame (observe rd r) = activeGame r.
Proof. destruct rd; reflexivity. Qed.

(* ------------------------------------------------------------------ *)
(** ** One run of the effects *)

Lemma cleanup_observable (b v : bool) :
  observable (effects (when v (screenSharingCleanup b))) =
    if v then (if b then [ClearInterval tickCallback] else [])
              ++ [ClearInterval validationCallback]
    else [].
Proof. destruct v, b; reflexivity. Qed.

(** The trace of one run, console lines apart. *)
Lemma commitOnce_observable (c : Component) (r : Render) :
  observable (snd (commitOnce c r)) =
    observable (effects (when (truthy (validationInterval c))
                           (screenSharingCleanup (truthy (tickInterval c)))))
    ++ observable (effects (screenSharingEffect r)).
Proof.
  unfold commitOnce. simpl. rewrite effects_bind, observable_app. reflexivity.
Qed.

Lemma commitOnce_trace (c : Component) (r : Render) :
  let t := snd (commitOnce c r) in
  reduce t r = settled r
  /\ count isStopped t = fallingEdges (wasScreenSharing r) t
  /\ count isStopped t
     = (if wasScreenSharing r && negb (sharing r) then 1 else 0)%nat
  /\ count isHeartbeat t = 0%nat
  /\ count isStarted t = 0%nat
  /\ registers validationCallback t = true
  /\ registers tickCallback t = sharing r
  /\ registers settleCallback t = sharing r && negb (wasScreenSharing r).
Proof.
  intros t.
  assert (Hobs : observable t =
            observable (effects (when (truthy (validationInterval c))
                                   (screenSharingCleanup (truthy (tickInterval c)))))
            ++ observable (effects (screenSharingEffect r)))
    by apply commitOnce_observable.
  rewrite cleanup_observable, effect_observable in Hobs.
  rewrite <- (reduce_observable t), <- (fallingEdges_observable _ t).
  rewrite <- (@count_observable isStopped t), <- (@count_observable isHeartbeat t),
    <- (@count_observable isStarted t) by reflexivity.
  rewrite <- (registers_observable validationCallback t),
    <- (registers_observable tickCallback t),
    <- (registers_observable settleCallback t).
  rewrite Hobs. clear Hobs t.
  unfold settled.
  destruct r as [i [w ai us lt]]; simpl.
  destruct (truthy (validationInterval c)), (truthy (tickInterval c)),
    (sharing i), w, (mayNotify i); simpl; repeat split; reflexivity.
Qed.

Ltac project_pairs :=
  repeat match goal with
    | |- context [fst (?a, ?b)] => change (fst (a, b)) with a
    | |- context [snd (?a, ?b)] => change (snd (a, b)) with b
    end.

Lemma commitOnce_component (c : Component) (r : Render) :
  fst (commitOnce c r) =
    {| rendered := r;
       currentStateRef := updateRef r;
       validationInterval := Some r;
       tickInterval := if sharing r then Some r else None;
       settleTimeouts :=
         settleTimeouts c
         ++ (if sharing r && negb (wasScreenSharing r) then [r] else []) |}.
Proof.
  destruct (commitOnce_trace c r) as (_ & _ & _ & _ & _ & Hv & Ht & Hs).
  unfold commitOnce in *. simpl in *. rewrite Hv, Ht, Hs. reflexivity.
Qed.

Lemma settled_idempotent (r : Render) :
  settled (withState r (settled r)) = settled r.
Proof.
  unfold settled, withState. simpl.
  destruct (wasScreenSharing r), (sharing r); reflexivity.
Qed.

Lemma settled_fixed (r : Render) :
  State_eqb (settled r) r = negb (wasScreenSharing r && negb (sharing r)).
Proof.
  unfold State_eqb, settled. simpl.
  rewrite !eqb_reflx, Z.eqb_refl, !andb_true_r.
  destruct (wasScreenSharing r), (sharing r); reflexivity.
Qed.

Lemma withState_same (r : Render) : withState r r = r.
Proof. destruct r; reflexivity. Qed.

(** A render, and the one re-render its stopped path can ask for. *)
Lemma commit_eq (c : Component) (r : Render) :
  commit c r =
    if wasScreenSharing r && negb (sharing r) then
      (fst (commitOnce (fst (commitOnce c r)) (withState r (settled r))),
       snd (commitOnce c r)
       ++ snd (commitOnce (fst (commitOnce c r)) (withState r (settled r))))
    else commitOnce c r.
Proof.
  unfold commit.
  pose proof (commitOnce_trace c r) as H.
  destruct (commitOnce c r) as [c1 t1]. simpl in H. destruct H as [Hr _].
  rewrite Hr, settled_fixed.
  destruct (wasScreenSharing r && negb (sharing r)); simpl; [| reflexivity].
  destruct (commitOnce c1 (withState r (settled r))); reflexivity.
Qed.

(** The re-render is the last: its own effect body leaves the state as it
    finds it. *)
Lemma commit_settles (c : Component) (r : Render) :
  let r' := rendered (fst (commit c r)) in
  reduce (effects (screenSharingEffect r')) r' = state r'.
Proof.
  intros r'. subst r'. rewrite commit_eq.
  destruct (wasScreenSharing r && negb (sharing r)) eqn:E; project_pairs.
  - rewrite commitOnce_component. simpl rendered.
    rewrite <- reduce_observable, effect_observable.
    destruct r as [i [w ai us lt]]. simpl in *.
    destruct w, (sharing i); try discriminate E. reflexivity.
  - rewrite commitOnce_component. simpl rendered.
    rewrite <- reduce_observable, effect_observable.
    destruct r as [i [w ai us lt]]. simpl in *.
    destruct w, (sharing i), (mayNotify i); try discriminate E; reflexivity.
Qed.

Lemma commit_spec (c : Component) (r : Render) :
  let c' := fst (commit c r) in
  let t := snd (commit c r) in
  consistent c'
  /\ rendered c' = withState r (settled r)
  /\ count isStopped t = fallingEdges (wasScreenSharing r) t
  /\ wasAfter (wasScreenSharing r) t = wasScreenSharing r && sharing r
  /\ count isHeartbeat t = 0%nat
  /\ count isStarted t = 0%nat.
Proof.
  intros c' t. subst c' t. rewrite commit_eq.
  destruct (wasScreenSharing r && negb (sharing r)) eqn:E.
  - set (c1 := fst (commitOnce c r)).
    set (r' := withState r (settled r)).
    destruct (commitOnce_trace c r) as (Hr1 & He1 & _ & Hh1 & Hs1 & _).
    destruct (commitOnce_trace c1 r') as (Hr2 & He2 & _ & Hh2 & Hs2 & _).
    project_pairs.
    rewrite !count_app, fallingEdges_app, wasAfter_app.
    rewrite <- !reduce_was, Hr1.
    change (state r') with (settled r) in Hr2. rewrite Hr2.
    rewrite commitOnce_component.
    assert (Hsh : sharing r' = sharing r) by reflexivity.
    assert (Hw : wasScreenSharing r' = false).
    { unfold r', settled. simpl.
      destruct (wasScreenSharing r), (sharing r); try discriminate E; reflexivity. }
    change (wasScreenSharing (settled r)) with (wasScreenSharing r').
    split; [| split; [| split; [| split; [| split]]]].
    + constructor;
        cbn [rendered validationInterval tickInterval currentStateRef];
        rewrite ?Hw; reflexivity.
    + reflexivity.
    + lia.
    + unfold r'. rewrite settled_idempotent. unfold settled. reflexivity.
    + lia.
    + lia.
  - destruct (commitOnce_trace c r) as (Hr1 & He1 & _ & Hh1 & Hs1 & _).
    rewrite <- reduce_was, Hr1.
    rewrite commitOnce_component.
    assert (Hfix : settled r = state r).
    { apply State_eqb_eq. rewrite settled_fixed, E. reflexivity. }
    split; [| split; [| split; [| split; [| split]]]]; auto.
    + constructor; simpl; auto.
    + simpl. rewrite Hfix. symmetry. apply withState_same.
Qed.

(* ------------------------------------------------------------------ *)
(** ** One event *)

Lemma afterCallback_spec (c : Component) (t : list Effect) :
  consistent c ->
  let c' := fst (afterCallback c t) in
  let t' := snd (afterCallback c t) in
  let w := wasScreenSharing (rendered c) in
  consistent c'
  /\ inputs (rendered c') = inputs (rendered c)
  /\ state (rendered c')
     = settled (withState (rendered c) (reduce t (rendered c)))
  /\ (count isStopped t = fallingEdges w t ->
      count isStopped t' = fallingEdges w t')
  /\ wasScreenSharing (rendered c') = wasAfter w t'
  /\ count isHeartbeat t' = count isHeartbeat t
  /\ count isStarted t' = count isStarted t.
Proof.
  intros Hc c' t' w. subst c' t' w. unfold afterCallback.
  destruct (State_eqb (reduce t (rendered c)) (rendered c)) eqn:E.
  - apply State_eqb_eq in E. project_pairs. rewrite E, withState_same.
    assert (Hfix : settled (rendered c) = state (rendered c)).
    { apply State_eqb_eq. rewrite settled_fixed.
      rewrite (no_pending_stop Hc). reflexivity. }
    rewrite Hfix.
    split; [exact Hc |]. do 4 (split; [auto |]).
    + rewrite <- reduce_was, E. reflexivity.
    + auto.
  - set (r := withState (rendered c) (reduce t (rendered c))).
    pose proof (commit_spec c r) as (Hc' & Hr & He & Hw & Hh & Hs).
    destruct (commit c r) as [c' t2]. cbn [fst snd] in Hc', Hr, He, Hw, Hh, Hs.
    project_pairs.
    assert (Hwr : wasScreenSharing r = wasAfter (wasScreenSharing (rendered c)) t)
      by (unfold r; simpl; apply reduce_was).
    split; [exact Hc' |].
    split; [rewrite Hr; reflexivity |].
    split; [rewrite Hr; reflexivity |].
    split; [| split; [| split]].
    + intros Ht. rewrite count_app, fallingEdges_app, Ht, He, Hwr. reflexivity.
    + rewrite Hr, wasAfter_app, <- Hwr, Hw. reflexivity.
    + rewrite count_app, Hh. lia.
    + rewrite count_app, Hs. lia.
Qed.

Lemma speech_traces (volume inVolume : float) (speaking : bool) (now : Z) (w : bool) :
  (count isStopped (effects (aiSpeakingEffect volume)) = 0%nat
   /\ fallingEdges w (effects (aiSpeakingEffect volume)) = 0%nat
   /\ count isHeartbeat (effects (aiSpeakingEffect volume)) = 0%nat
   /\ count isStarted (effects (aiSpeakingEffect volume)) = 0%nat)
  /\ (count isStopped (effects (userSpeakingEffect inVolume speaking now)) = 0%nat
      /\ fallingEdges w (effects (userSpeakingEffect inVolume speaking now)) = 0%nat
      /\ count isHeartbeat (effects (userSpeakingEffect inVolume speaking now)) = 0%nat
      /\ count isStarted (effects (userSpeakingEffect inVolume speaking now)) = 0%nat).
Proof.
  split; [repeat split |].
  unfold userSpeakingEffect.
  destruct (PrimFloat.ltb 0.015 inVolume), speaking; repeat split.
Qed.

Lemma validation_trace (r : Render) :
  let t := effects (validationIntervalCallback r) in
  count isStopped t = fallingEdges (wasScreenSharing r) t
  /\ count isHeartbeat t = 0%nat
  /\ count isStarted t = 0%nat.
Proof.
  intros t.
  rewrite <- (@count_observable isStopped t), <- (@count_observable isHeartbeat t),
    <- (@count_observable isStarted t), <- (fallingEdges_observable _ t)
    by reflexivity.
  subst t. rewrite validation_observable.
  destruct (wasScreenSharing r), (sharing r), (mayNotify r),
    (isStreaming (screenCapture r)), (isStreaming (webcam r)); repeat split.
Qed.

Lemma settle_trace (r : Render) (w : bool) :
  let t := effects (settleTimeoutCallback r) in
  count isStopped t = 0%nat
  /\ fallingEdges w t = 0%nat
  /\ count isHeartbeat t = 0%nat
  /\ count isStarted t = (if sharing r then 1 else 0)%nat.
Proof.
  intros t.
  rewrite <- (@count_observable isStopped t), <- (@count_observable isHeartbeat t),
    <- (@count_observable isStarted t), <- (fallingEdges_observable _ t)
    by reflexivity.
  subst t. rewrite settle_observable.
  destruct w, (sharing r), (mayNotify r); repeat split.
Qed.

Lemma tick_trace (r : Render) (current : CurrentState) (now : Z) (w : bool) :
  let t := effects (tickIntervalCallback r current now) in
  count isStopped t = 0%nat
  /\ fallingEdges w t = 0%nat
  /\ count isStarted t = 0%nat
  /\ count isHeartbeat t
     = (if anyAdapterStreaming r && spec_gate current now then 1 else 0)%nat.
Proof.
  intros t.
  rewrite <- (@count_observable isStopped t), <- (@count_observable isHeartbeat t),
    <- (@count_observable isStarted t), <- (fallingEdges_observable _ t)
    by reflexivity.
  subst t. rewrite tick_observable.
  destruct (anyAdapterStreaming r && spec_gate current now); repeat split.
Qed.

Lemma consistent_without_timeout (c : Component) (l : list Render) :
  consistent c ->
  consistent {| rendered := rendered c;
                currentStateRef := currentStateRef c;
                validationInterval := validationInterval c;
                tickInterval := tickInterval c;
                settleTimeouts := l |}.
Proof. intros [H1 H2 H3 H4]. constructor; assumption. Qed.

Lemma step_spec (c : Component) (e : Event) :
  consistent c ->
  let c' := fst (step c e) in
  let t := snd (step c e) in
  let w := wasScreenSharing (rendered c) in
  consistent c'
  /\ count isStopped t = fallingEdges w t
  /\ wasScreenSharing (rendered c') = wasAfter w t.
Proof.
  intros Hc c' t w. subst c' t w.
  destruct e as [i | volume | inVolume now | rd | n rd | rd now]; simpl step.
  - pose proof (commit_spec c {| inputs := i; state := rendered c |})
      as (Hc' & Hr & He & Hw & _).
    cbn [wasScreenSharing state] in He, Hw.
    split; [exact Hc' |]. split; [exact He |].
    rewrite Hr, Hw. reflexivity.
  - destruct (speech_traces volume volume false 0 (wasScreenSharing (rendered c)))
      as [(H1 & H2 & _) _].
    pose proof (afterCallback_spec (effects (aiSpeakingEffect volume)) Hc)
      as (Hc' & _ & _ & He & Hw & _).
    split; [exact Hc' |].
    split; [apply He; exact (eq_trans H1 (eq_sym H2)) | exact Hw].
  - destruct (speech_traces inVolume inVolume (isUserSpeaking (rendered c)) now
                (wasScreenSharing (rendered c)))
      as [_ (H1 & H2 & _)].
    pose proof (afterCallback_spec
                  (effects (userSpeakingEffect inVolume
                              (isUserSpeaking (rendered c)) now)) Hc)
      as (Hc' & _ & _ & He & Hw & _).
    split; [exact Hc' |].
    split; [apply He; exact (eq_trans H1 (eq_sym H2)) | exact Hw].
  - rewrite (validation_current Hc).
    destruct (validation_trace (observe rd (rendered c))) as (H1 & _).
    rewrite observe_state in H1.
    pose proof (afterCallback_spec
                  (effects (validationIntervalCallback (observe rd (rendered c))))
                  Hc)
      as (Hc' & _ & _ & He & Hw & _).
    split; [exact Hc' |]. split; [apply He; exact H1 | exact Hw].
  - destruct (nth_error (settleTimeouts c) n) as [r |].
    + destruct (settle_trace (observe rd r) (wasScreenSharing (rendered c)))
        as (H1 & H2 & _).
      pose proof (afterCallback_spec
                    (effects (settleTimeoutCallback (observe rd r)))
                    (consistent_without_timeout
                       (removeNth n (settleTimeouts c)) Hc))
        as (Hc' & _ & _ & He & Hw & _).
      cbn [rendered] in He, Hw.
      split; [exact Hc' |].
      split; [apply He; exact (eq_trans H1 (eq_sym H2)) | exact Hw].
    + split; [exact Hc |]. split; reflexivity.
  - rewrite (tick_current Hc).
    destruct (sharing (rendered c)) eqn:Es.
    + destruct (tick_trace (observe rd (rendered c)) (currentStateRef c) now
                  (wasScreenSharing (rendered c)))
        as (H1 & H2 & _).
      pose proof (afterCallback_spec
                    (effects (tickIntervalCallback (observe rd (rendered c))
                                (currentStateRef c) now)) Hc)
        as (Hc' & _ & _ & He & Hw & _).
      split; [exact Hc' |].
      split; [apply He; exact (eq_trans H1 (eq_sym H2)) | exact Hw].
    + split; [exact Hc |]. split; reflexivity.
Qed.

(** Which events send a coaching trigger, and when. *)
Lemma step_heartbeats (c : Component) (e : Event) :
  consistent c ->
  count isHeartbeat (snd (step c e)) =
    match e with
    | TickFires rd now =>
        if sharing (rendered c)
           && (anyAdapterStreaming (observe rd (rendered c))
               && spec_gate (currentStateRef c) now)
        then 1%nat else 0%nat
    | _ => 0%nat
    end.
Proof.
  intros Hc.
  destruct e as [i | volume | inVolume now | rd | n rd | rd now]; simpl step.
  - pose proof (commit_spec c {| inputs := i; state := rendered c |})
      as (_ & _ & _ & _ & Hh & _).
    exact Hh.
  - destruct (speech_traces volume volume false 0 false) as [(_ & _ & H3 & _) _].
    pose proof (afterCallback_spec (effects (aiSpeakingEffect volume)) Hc)
      as (_ & _ & _ & _ & _ & Hh & _).
    exact (eq_trans Hh H3).
  - destruct (speech_traces inVolume inVolume (isUserSpeaking (rendered c)) now
                false)
      as [_ (_ & _ & H3 & _)].
    pose proof (afterCallback_spec
                  (effects (userSpeakingEffect inVolume
                              (isUserSpeaking (rendered c)) now)) Hc)
      as (_ & _ & _ & _ & _ & Hh & _).
    exact (eq_trans Hh H3).
  - rewrite (validation_current Hc).
    destruct (validation_trace (observe rd (rendered c))) as (_ & H2 & _).
    pose proof (afterCallback_spec
                  (effects (validationIntervalCallback (observe rd (rendered c))))
                  Hc)
      as (_ & _ & _ & _ & _ & Hh & _).
    exact (eq_trans Hh H2).
  - destruct (nth_error (settleTimeouts c) n) as [r |]; [| reflexivity].
    destruct (settle_trace (observe rd r) false) as (_ & _ & H3 & _).
    pose proof (afterCallback_spec
                  (effects (settleTimeoutCallback (observe rd r)))
                  (consistent_without_timeout
                     (removeNth n (settleTimeouts c)) Hc))
      as (_ & _ & _ & _ & _ & Hh & _).
    exact (eq_trans Hh H3).
  - rewrite (tick_current Hc).
    destruct (sharing (rendered c)) eqn:Es; [| reflexivity].
    destruct (tick_trace (observe rd (rendered c)) (currentStateRef c) now false)
      as (_ & _ & _ & H4).
    pose proof (afterCallback_spec
                  (effects (tickIntervalCallback (observe rd (rendered c))
                              (currentStateRef c) now)) Hc)
      as (_ & _ & _ & _ & _ & Hh & _).
    exact (eq_trans Hh H4).
Qed.

(* ------------------------------------------------------------------ *)
(** ** Executions *)

Lemma run_spec (es : list Event) : forall c : Component,
  consistent c ->
  let c' := fst (run c es) in
  let t := snd (run c es) in
  let w := wasScreenSharing (rendered c) in
  consistent c'
  /\ count isStopped t = fallingEdges w t
  /\ wasScreenSharing (rendered c') = wasAfter w t.
Proof.
  induction es as [| e es IH]; intros c Hc; simpl.
  - split; [exact Hc |]. split; reflexivity.
  - pose proof (step_spec e Hc) as (Hc1 & He1 & Hw1).
    destruct (step c e) as [c1 t1]. cbn [fst snd] in Hc1, He1, Hw1.
    pose proof (IH c1 Hc1) as (Hc2 & He2 & Hw2).
    destruct (run c1 es) as [c2 t2]. cbn [fst snd] in Hc2, He2, Hw2 |- *.
    split; [exact Hc2 |].
    rewrite count_app, fallingEdges_app, wasAfter_app, <- Hw1.
    split; [lia | exact Hw2].
Qed.

Lemma execution_spec (i : Inputs) (es : list Event) :
  let c := fst (execution i es) in
  let t := snd (execution i es) in
  consistent c
  /\ count isStopped t = fallingEdges false t
  /\ wasScreenSharing (rendered c) = wasAfter false t.
Proof.
  unfold execution.
  pose proof (commit_spec (unmounted i) {| inputs := i; state := initialState |})
    as (Hc0 & Hr0 & He0 & Hw0 & _).
  destruct (commit (unmounted i) _) as [c0 t0].
  cbn [fst snd wasScreenSharing state initialState] in Hc0, Hr0, He0, Hw0.
  pose proof (run_spec es Hc0) as (Hc & He & Hw).
  destruct (run c0 es) as [c t]. cbn [fst snd] in Hc, He, Hw |- *.
  assert (Hw0' : wasScreenSharing (rendered c0) = wasAfter false t0).
  { rewrite Hr0, Hw0. reflexivity. }
  split; [exact Hc |].
  rewrite count_app, fallingEdges_app, wasAfter_app, <- Hw0'.
  split; [lia | exact Hw].
Qed.

(** Stops and the flag.  Along every execution, from mount on, the number
    of [screenSharingStopped] notifications equals the number of times
    [wasScreenSharing] has gone from true to false, whichever path wrote
    the flag: the stopped path of the effect or the forced stop of the
    validation interval.  On the forced-stop path the callback first sets
    the flag to false, then calls [stop()] on each adapter that reports
    [isStreaming], then dispatches the one notification (and hands the
    message to the client when connected and not muted). *)
Theorem stopped_once_per_edge (i : Inputs) (es : list Event) :
  let t := snd (execution i es) in
  count isStopped t = fallingEdges false t
  /\ (forall r : Render,
        wasScreenSharing r = true -> sharing r = false ->
        observable (effects (validationIntervalCallback r)) =
          SetWasScreenSharing false
          :: (if isStreaming (screenCapture r) then [Stop Screen] else [])
          ++ (if isStreaming (webcam r) then [Stop Webcam] else [])
          ++ DispatchEvent screenSharingStopped (activeGame r)
          :: (if mayNotify r then [ClientSend forcedStopNotification] else [])).
Proof.
  intros t. split.
  - apply execution_spec.
  - intros r Hw Hs. rewrite validation_observable, Hw, Hs. reflexivity.
Qed.

Lemma stopped_once_per_edge_witness :
  let es := [SettleFires 0 AsCaptured; ValidationFires (Live off deadHandle)] in
  count isStopped (snd (execution captureOnly es)) = 1%nat
  /\ fallingEdges false (snd (execution captureOnly es)) = 1%nat
  /\ observable
       (effects (validationIntervalCallback
                   (observe (Live off deadHandle)
                      {| inputs := captureOnly; state := active |})))
     = [SetWasScreenSharing false; Stop Screen;
        DispatchEvent screenSharingStopped (Some EAFC);
        ClientSend forcedStopNotification].
Proof.
  intros es.
  destruct (stopped_once_per_edge captureOnly es) as [Hcount Hforced].
  split; [reflexivity |].
  split; [rewrite <- Hcount; reflexivity |].
  apply Hforced; reflexivity.
Defined.


(* ------------------------------------------------------------------ *)
(** ** The settle timeout is never cancelled *)

(** C1, at two failing inputs.  In the first the adapter starts to
    stream and, within the settle second, [changeStreams] hands over the
    stream handles: the validator evaluates to false, true, true, with one
    rising edge, but the second render re-runs the effect while the first
    settle timeout is pending.  In the second the screen is shared and 300
    ms later the AI starts to speak, which re-runs the effect as well.  The
    cleanup clears the two intervals but not the timeout, the new run arms
    another one, and both fire: [wasScreenSharing] rises once, yet
    [screenSharingStarted] is dispatched twice and the started message is
    sent twice. *)
Theorem started_twice_for_one_edge :
  (let es := [Rerender captureOnly; Rerender screenShared;
              SettleFires 0 AsCaptured; SettleFires 0 AsCaptured] in
   let t := snd (execution idle es) in
   map sharing [idle; captureOnly; screenShared] = [false; true; true]
   /\ risingEdges false t = 1%nat
   /\ count isStarted t = 2%nat
   /\ count isStartedMessage t = 2%nat)
  /\ (let es := [Rerender screenShared; OutputVolume 0.5;
                 SettleFires 0 AsCaptured; SettleFires 0 AsCaptured] in
      let t := snd (execution idle es) in
      map sharing [idle; screenShared] = [false; true]
      /\ risingEdges false t = 1%nat
      /\ count isStarted t = 2%nat
      /\ count isStartedMessage t = 2%nat).
Proof. repeat split. Qed.

(** The same defect with live adapter reads: the second timeout re-checks
    an adapter that is still streaming, and notifies again. *)
Lemma started_twice_with_live_reads :
  let es := [Rerender screenShared; OutputVolume 0.5;
             SettleFires 0 (Live off (on 1%nat)); SettleFires 0 (Live off (on 1%nat))] in
  count isStarted (snd (execution idle es)) = 2%nat.
Proof. reflexivity. Qed.

(** Without a render between the edge and its timeout there is one
    notification. *)
Lemma started_once_when_undisturbed :
  let es := [Rerender screenShared; SettleFires 0 AsCaptured] in
  count isStarted (snd (execution idle es)) = 1%nat
  /\ settleTimeouts (fst (execution idle es)) = [].
Proof. split; reflexivity. Qed.

(** A flip that reverts before the re-check: when the timeout reads the
    adapters live it stays silent; when the adapter objects are values of
    the render that armed the timeout, the re-check sees the same values
    as the first check and notifies. *)
Lemma revert_before_recheck :
  count isStarted
    (snd (execution idle [Rerender captureOnly; Rerender idle;
                          SettleFires 0 (Live off off)])) = 0%nat
  /\ count isStarted
       (snd (execution idle [Rerender captureOnly; Rerender idle;
                             SettleFires 0 AsCaptured])) = 1%nat.
Proof. split; reflexivity. Qed.

(** What a render does about a stop: it dispatches [screenSharingStopped]
    once when it fails validation with the flag set, and not otherwise. *)
Lemma rerender_stopped (c : Component) (i : Inputs) :
  count isStopped (snd (step c (Rerender i)))
  = (if wasScreenSharing (rendered c) && negb (sharing i) then 1 else 0)%nat.
Proof.
  cbn [step]. set (r := {| inputs := i; state := rendered c |}).
  change (wasScreenSharing (rendered c)) with (wasScreenSharing r).
  change (sharing i) with (sharing r).
  rewrite commit_eq.
  destruct (commitOnce_trace c r) as (_ & _ & H1 & _). cbn zeta in H1.
  destruct (wasScreenSharing r && negb (sharing r)) eqn:E; [| exact H1].
  destruct (commitOnce_trace (fst (commitOnce c r)) (withState r (settled r)))
    as (_ & _ & H2 & _).
  cbn zeta in H2.
  assert (Hw : wasScreenSharing (withState r (settled r)) = false).
  { unfold settled, withState. cbn [wasScreenSharing state].
    destruct (wasScreenSharing r), (sharing r); try discriminate E; reflexivity. }
  rewrite Hw in H2. cbn [andb] in H2.
  project_pairs. rewrite count_app, H1, H2. reflexivity.
Qed.

(** C2, at a failing input.  The screen is shared; within the settle
    second the AI starts to speak, which re-runs the effect and arms a
    second settle timeout; the first timeout fires and announces the
    session; the user stops sharing, and the stop is announced; then the
    second timeout fires.  Its closure still validates, so it announces a
    start and sets the flag again, and the render that follows announces
    the same stop a second time: the validator has gone from true to false
    once, and [screenSharingStopped] is dispatched twice (with its message
    sent twice).  It makes no difference whether the late timeout reads
    the adapters as captured or as they are then. *)
Theorem stopped_twice_for_one_stop :
  let es := fun rd => [Rerender screenShared; OutputVolume 0.5;
                       SettleFires 0 AsCaptured; Rerender idle;
                       SettleFires 0 rd] in
  map sharing [idle; screenShared; idle] = [false; true; false]
  /\ filter isDispatch (snd (execution idle (es AsCaptured)))
     = [DispatchEvent screenSharingStarted (Some EAFC);
        DispatchEvent screenSharingStopped (Some EAFC);
        DispatchEvent screenSharingStarted (Some EAFC);
        DispatchEvent screenSharingStopped (Some EAFC)]
  /\ count isStopped (snd (execution idle (es AsCaptured))) = 2%nat
  /\ count isStopped (snd (execution idle (es (Live off off)))) = 2%nat
  /\ filter isSend (snd (execution idle (es AsCaptured)))
     = [ClientSend (screenShareNotification (Some EAFC));
        ClientSend screenShareStoppedNotification;
        ClientSend (screenShareNotification (Some EAFC));
        ClientSend screenShareStoppedNotification]
  /\ count isStopped
       (snd (execution idle [Rerender screenShared; SettleFires 0 AsCaptured;
                             Rerender idle])) = 1%nat.
Proof. repeat split. Qed.

(** C6, at two failing inputs.  In the first the screen is shared and
    the user mutes within the settle second: the render that follows arms
    a second settle timeout and leaves the first one pending, and when the
    first fires its closure still has [muted = false], so the started
    message is sent while the session is muted.  In the second the screen
    is shared while muted and the user unmutes within the settle second:
    the first timeout records the edge without a message, and the second
    one sends the message for that edge after all. *)
Theorem started_message_from_stale_closure :
  (let c := fst (execution idle [Rerender screenShared;
                                 Rerender screenSharedMuted]) in
   muted (rendered c) = true
   /\ wasScreenSharing (rendered c) = false
   /\ filter isSend (snd (step c (SettleFires 0 AsCaptured)))
      = [ClientSend (screenShareNotification (Some EAFC))])
  /\ (let c := fst (execution idle [Rerender screenSharedMuted;
                                    Rerender screenShared]) in
      let first := step c (SettleFires 0 AsCaptured) in
      let second := step (fst first) (SettleFires 0 AsCaptured) in
      filter isSend (snd first) = []
      /\ wasScreenSharing (rendered (fst first)) = true
      /\ filter isSend (snd second)
         = [ClientSend (screenShareNotification (Some EAFC))])
  /\ (let c := fst (execution idle [Rerender screenSharedMuted]) in
      filter isSend (snd (step c (SettleFires 0 AsCaptured))) = []
      /\ settleTimeouts (fst (step c (SettleFires 0 AsCaptured))) = []).
Proof. repeat split. Qed.

(* ------------------------------------------------------------------ *)
(** ** Speech activity *)

Lemma afterCallback_state (c : Component) (t : list Effect) :
  let s := state (rendered (fst (afterCallback c t))) in
  lastUserSpeechTime s = lastUserSpeechTime (reduce t (rendered c))
  /\ isUserSpeaking s = isUserSpeaking (reduce t (rendered c))
  /\ isAISpeaking s = isAISpeaking (reduce t (rendered c)).
Proof.
  intros s. subst s. unfold afterCallback.
  destruct (State_eqb (reduce t (rendered c)) (rendered c)) eqn:E.
  - apply State_eqb_eq in E. project_pairs. rewrite E. repeat split.
  - pose proof (commit_spec c (withState (rendered c) (reduce t (rendered c))))
      as (_ & Hr & _).
    destruct (commit c _) as [c' t']. cbn [fst] in Hr. project_pairs.
    rewrite Hr. repeat split.
Qed.

(** Only the user-speaking effect writes [lastUserSpeechTime]. *)
Lemma callbacks_keep_lastUserSpeechTime
    (r : Render) (current : CurrentState) (now : Z) (volume : float) (s : State) :
  lastUserSpeechTime (reduce (effects (validationIntervalCallback r)) s)
  = lastUserSpeechTime s
  /\ lastUserSpeechTime (reduce (effects (settleTimeoutCallback r)) s)
     = lastUserSpeechTime s
  /\ lastUserSpeechTime (reduce (effects (tickIntervalCallback r current now)) s)
     = lastUserSpeechTime s
  /\ lastUserSpeechTime (reduce (effects (aiSpeakingEffect volume)) s)
     = lastUserSpeechTime s.
Proof.
  rewrite <- (reduce_observable (effects (validationIntervalCallback r))),
    <- (reduce_observable (effects (settleTimeoutCallback r))),
    <- (reduce_observable (effects (tickIntervalCallback r current now))).
  rewrite validation_observable, settle_observable, tick_observable.
  destruct (wasScreenSharing r), (sharing r), (mayNotify r),
    (isStreaming (screenCapture r)), (isStreaming (webcam r)),
    (anyAdapterStreaming r && spec_gate current now); repeat split.
Qed.

Lemma userSpeaking_reduce (inVolume : float) (now : Z) (s : State) :
  reduce (effects (userSpeakingEffect inVolume (isUserSpeaking s) now)) s =
    if negb (isUserSpeaking s) && PrimFloat.ltb 0.015 inVolume then
      {| wasScreenSharing := wasScreenSharing s;
         isAISpeaking := isAISpeaking s;
         isUserSpeaking := true;
         lastUserSpeechTime := now |}
    else
      {| wasScreenSharing := wasScreenSharing s;
         isAISpeaking := isAISpeaking s;
         isUserSpeaking := PrimFloat.ltb 0.015 inVolume;
         lastUserSpeechTime := lastUserSpeechTime s |}.
Proof.
  unfold userSpeakingEffect. destruct s as [w ai us lt]; simpl.
  destruct (PrimFloat.ltb 0.015 inVolume), us; reflexivity.
Qed.

Lemma step_lastUserSpeechTime (c : Component) (e : Event) :
  lastUserSpeechTime (rendered (fst (step c e))) =
    match e with
    | InputVolume inVolume now =>
        if negb (isUserSpeaking (rendered c)) && PrimFloat.ltb 0.015 inVolume
        then now else lastUserSpeechTime (rendered c)
    | _ => lastUserSpeechTime (rendered c)
    end.
Proof.
  destruct e as [i | volume | inVolume now | rd | n rd | rd now]; simpl step.
  - pose proof (commit_spec c {| inputs := i; state := rendered c |})
      as (_ & Hr & _).
    rewrite Hr. reflexivity.
  - destruct (afterCallback_state c (effects (aiSpeakingEffect volume)))
      as (H & _).
    exact H.
  - destruct (afterCallback_state c
                (effects (userSpeakingEffect inVolume
                            (isUserSpeaking (rendered c)) now)))
      as (H & _).
    etransitivity; [exact H |].
    rewrite userSpeaking_reduce.
    destruct (negb (isUserSpeaking (rendered c)) && PrimFloat.ltb 0.015 inVolume);
      reflexivity.
  - destruct (validationInterval c) as [r |]; [| reflexivity].
    destruct (afterCallback_state c
                (effects (validationIntervalCallback (observe rd r))))
      as (H & _).
    etransitivity; [exact H |].
    apply (callbacks_keep_lastUserSpeechTime (observe rd r)
             (currentStateRef c) 0 0%float).
  - destruct (nth_error (settleTimeouts c) n) as [r |]; [| reflexivity].
    match goal with
    | |- context [afterCallback ?c' ?t] =>
        destruct (afterCallback_state c' t) as (H & _)
    end.
    etransitivity; [exact H |].
    apply (callbacks_keep_lastUserSpeechTime (observe rd r)
             (currentStateRef c) 0 0%float).
  - destruct (tickInterval c) as [r |]; [| reflexivity].
    destruct (afterCallback_state c
                (effects (tickIntervalCallback (observe rd r)
                            (currentStateRef c) now)))
      as (H & _).
    etransitivity; [exact H |].
    apply (callbacks_keep_lastUserSpeechTime (observe rd r)
             (currentStateRef c) now 0%float).
Qed.

Lemma clockMonotone_app (es1 es2 : list Event) : forall t : Z,
  clockMonotone t (es1 ++ es2) <->
  clockMonotone t es1 /\ clockMonotone (clockAfter t es1) es2.
Proof.
  induction es1 as [| e es1 IH]; intros t; simpl.
  - tauto.
  - destruct e; simpl; rewrite ?IH; tauto.
Qed.

Lemma run_app (es1 es2 : list Event) : forall c : Component,
  run c (es1 ++ es2) =
    (fst (run (fst (run c es1)) es2),
     snd (run c es1) ++ snd (run (fst (run c es1)) es2)).
Proof.
  induction es1 as [| e es1 IH]; intros c; simpl.
  - destruct (run c es2); reflexivity.
  - destruct (step c e) as [c1 t1]. rewrite IH.
    destruct (run c1 es1) as [c2 t2]. simpl.
    destruct (run c2 es2) as [c3 t3]. simpl.
    rewrite app_assoc. reflexivity.
Qed.

Lemma run_lastUserSpeechTime (es : list Event) : forall (c : Component) (t : Z),
  lastUserSpeechTime (rendered c) <= t ->
  clockMonotone t es ->
  lastUserSpeechTime (rendered c) <= lastUserSpeechTime (rendered (fst (run c es)))
  /\ lastUserSpeechTime (rendered (fst (run c es))) <= clockAfter t es.
Proof.
  induction es as [| e es IH]; intros c t Hle Hmono; simpl.
  - lia.
  - pose proof (step_lastUserSpeechTime c e) as Hstep.
    destruct (step c e) as [c1 t1]. cbn [fst] in Hstep.
    assert (Hnext : forall t', lastUserSpeechTime (rendered c1) <= t' ->
                      clockMonotone t' es ->
                      lastUserSpeechTime (rendered c1)
                      <= lastUserSpeechTime (rendered (fst (run c1 es)))
                      /\ lastUserSpeechTime (rendered (fst (run c1 es)))
                         <= clockAfter t' es)
      by (intros t'; apply IH).
    destruct (run c1 es) as [c2 t2]. cbn [fst] in Hnext |- *.
    destruct e as [i | volume | inVolume now | rd | n rd | rd now];
      simpl in Hmono |- *;
      try (rewrite Hstep in Hnext; specialize (Hnext t Hle Hmono); lia).
    + destruct Hmono as [Hnow Hmono].
      destruct (negb (isUserSpeaking (rendered c)) && PrimFloat.ltb 0.015 inVolume).
      * assert (H1 : lastUserSpeechTime (rendered c1) <= now) by lia.
        specialize (Hnext now H1 Hmono). lia.
      * assert (H1 : lastUserSpeechTime (rendered c1) <= now) by lia.
        specialize (Hnext now H1 Hmono). lia.
    + destruct Hmono as [Hnow Hmono].
      assert (H1 : lastUserSpeechTime (rendered c1) <= now) by lia.
      specialize (Hnext now H1 Hmono). lia.
Qed.

Lemma execution_fst (i : Inputs) (es : list Event) :
  fst (execution i es) =
    fst (run (fst (commit (unmounted i) {| inputs := i; state := initialState |}))
           es).
Proof.
  unfold execution.
  destruct (commit (unmounted i) _) as [c0 t0]. cbn [fst].
  destruct (run c0 es); reflexivity.
Qed.

Lemma mount_lastUserSpeechTime (i : Inputs) :
  lastUserSpeechTime
    (rendered (fst (commit (unmounted i) {| inputs := i; state := initialState |})))
  = 0.
Proof.
  pose proof (commit_spec (unmounted i) {| inputs := i; state := initialState |})
    as (_ & Hr & _).
  rewrite Hr. reflexivity.
Qed.

Lemma execution_monotone (i : Inputs) (es es' : list Event) :
  clockMonotone 0 (es ++ es') ->
  lastUserSpeechTime (rendered (fst (execution i es)))
  <= lastUserSpeechTime (rendered (fst (execution i (es ++ es')))).
Proof.
  intros Hmono.
  rewrite !execution_fst, run_app. cbn [fst].
  apply clockMonotone_app in Hmono. destruct Hmono as [H1 H2].
  set (c0 := fst (commit (unmounted i) {| inputs := i; state := initialState |})).
  assert (H0 : lastUserSpeechTime (rendered c0) <= 0)
    by (unfold c0; rewrite mount_lastUserSpeechTime; lia).
  destruct (run_lastUserSpeechTime es c0 H0 H1) as [_ Hle].
  destruct (run_lastUserSpeechTime es' (fst (run c0 es)) Hle H2) as [Hres _].
  exact Hres.
Qed.

Lemma execution_snoc (i : Inputs) (es : list Event) (e : Event) :
  fst (execution i (es ++ [e])) = fst (step (fst (execution i es)) e).
Proof.
  rewrite !execution_fst, run_app. cbn [fst]. simpl.
  destruct (step _ e); reflexivity.
Qed.

(** C7.  At any point of any execution: an input sample above the
    threshold that finds the user not speaking marks the user speaking and
    sets [lastUserSpeechTime] to the time of the sample; an output sample
    never changes [lastUserSpeechTime]; and, the clock never running
    backwards, [lastUserSpeechTime] never decreases as the execution goes
    on. *)
Theorem lastUserSpeechTime_spec (i : Inputs) (es : list Event) :
  let c := fst (execution i es) in
  (forall (inVolume : float) (now : Z),
      isUserSpeaking (rendered c) = false ->
      PrimFloat.ltb 0.015 inVolume = true ->
      isUserSpeaking (rendered (fst (step c (InputVolume inVolume now)))) = true
      /\ lastUserSpeechTime (rendered (fst (step c (InputVolume inVolume now))))
         = now)
  /\ (forall volume : float,
        lastUserSpeechTime (rendered (fst (step c (OutputVolume volume))))
        = lastUserSpeechTime (rendered c))
  /\ (forall es' : list Event,
        clockMonotone 0 (es ++ es') ->
        lastUserSpeechTime (rendered c)
        <= lastUserSpeechTime (rendered (fst (execution i (es ++ es'))))).
Proof.
  intros c. split; [| split].
  - intros inVolume now Hus Hv. split.
    + simpl step.
      destruct (afterCallback_state c
                  (effects (userSpeakingEffect inVolume
                              (isUserSpeaking (rendered c)) now)))
        as (_ & H & _).
      etransitivity; [exact H |].
      rewrite userSpeaking_reduce, Hus, Hv. reflexivity.
    + rewrite step_lastUserSpeechTime, Hus, Hv. reflexivity.
  - intros volume. apply step_lastUserSpeechTime.
  - intros es'. apply execution_monotone.
Qed.

Lemma lastUserSpeechTime_spec_witness :
  let es := [InputVolume 0.5 1000; InputVolume 0.001 2000] in
  let c := fst (execution idle es) in
  lastUserSpeechTime (rendered c) = 1000
  /\ lastUserSpeechTime (rendered (fst (step c (InputVolume 0.3 3000)))) = 3000
  /\ 1000 <= lastUserSpeechTime
               (rendered (fst (execution idle
                                 (es ++ [OutputVolume 0.9; InputVolume 0.3 3000])))).
Proof.
  intros es c.
  destruct (lastUserSpeechTime_spec idle es) as (Hin & _ & Hmono).
  split; [reflexivity |]. split.
  - apply (Hin 0.3%float 3000); reflexivity.
  - apply (Hmono [OutputVolume 0.9; InputVolume 0.3 3000]).
    simpl. lia.
Defined.

(* ------------------------------------------------------------------ *)
(** ** Stream switch *)

Lemma changeStreams_observable (next : option SourceKind) (started : option MediaStream) :
  observable (effects (changeStreams next started)) =
    match next with
    | Some k =>
        Start k
        :: match started with
           | Some mediaStream =>
               [SetActiveVideoStream (Some mediaStream);
                OnVideoStreamChange (Some mediaStream)]
           | None => [ConsoleError "Failed to start stream"]
           end
    | None => [SetActiveVideoStream None; OnVideoStreamChange None]
    end
    ++ map Stop (filter (isNot next) [Webcam; Screen]).
Proof.
  destruct next as [[|] |], started; reflexivity.
Qed.

Lemma forEach_stop (l : list SourceKind) :
  effects (forEach l (fun msr => emit (Stop msr))) = map Stop l.
Proof.
  induction l as [| k l IH]; [reflexivity |].
  cbn [forEach]. rewrite effects_bind. cbv beta. rewrite IH. reflexivity.
Qed.

(** The [stop()] calls are the last thing a switch does. *)
Lemma changeStreams_trace (next : option SourceKind) (started : option MediaStream) :
  exists pre : list Effect,
    effects (changeStreams next started)
    = pre ++ map Stop (filter (isNot next) [Webcam; Screen]).
Proof.
  unfold changeStreams. rewrite effects_bind. cbv beta.
  rewrite effects_bind. cbv beta. rewrite forEach_stop.
  eexists. rewrite app_assoc. reflexivity.
Qed.

Lemma performAll_app {A} `{CaptureAdapters A} (t1 t2 : list Effect) (a : A) :
  performAll (t1 ++ t2) a = performAll t2 (performAll t1 a).
Proof. apply fold_left_app. Qed.

Section StreamSwitch.
Context {A : Type} `{CaptureAdapters A}.

Lemma click_stops_others
    (next : option SourceKind) (started : option MediaStream)
    (a : A) (k : SourceKind) :
  next <> Some k ->
  streaming k (trayStep a (Click next started)) = false.
Proof.
  intros Hk. unfold trayStep.
  destruct (changeStreams_trace next started) as [pre ->].
  rewrite performAll_app. generalize (performAll pre a). intros a'.
  destruct next as [[|] |], k; simpl; try congruence;
    first [ apply stop_clears
          | apply stop_starts_nothing; apply stop_clears ].
Qed.

Lemma click_atMostOne
    (next : option SourceKind) (started : option MediaStream) (a : A) :
  atMostOneStreaming (trayStep a (Click next started)).
Proof.
  intros [Hw Hs].
  destruct next as [[|] |].
  - rewrite click_stops_others in Hs by discriminate. discriminate.
  - rewrite click_stops_others in Hw by discriminate. discriminate.
  - rewrite click_stops_others in Hw by discriminate. discriminate.
Qed.

Lemma tray_atMostOne (es : list TrayEvent) : forall a : A,
  atMostOneStreaming a -> atMostOneStreaming (fold_left trayStep es a).
Proof.
  induction es as [| e es IH]; intros a Ha; [exact Ha |].
  simpl. apply IH. destruct e as [next started | k].
  - apply click_atMostOne.
  - intros [Hw Hs]. cbn [trayStep] in Hw, Hs. apply Ha. split.
    + destruct (streaming Webcam a) eqn:E; [reflexivity |].
      rewrite (trackEnded_starts_nothing k Webcam a E) in Hw. discriminate.
    + destruct (streaming Screen a) eqn:E; [reflexivity |].
      rewrite (trackEnded_starts_nothing k Screen a E) in Hs. discriminate.
Qed.
End StreamSwitch.

(** C10.  A completed [changeStreams(next)] has called [stop()] on every
    adapter other than [next] -- on both when there is no [next] -- and on
    no other, whether [next.start()] resolved or rejected.  So, for any
    adapters whose [stop()] clears their own liveness flag and starts
    nothing, after the switch every adapter other than [next] is not
    streaming and at most one of the webcam and the screen capture is; and
    since only the switch calls [start()], that stays so along every
    sequence of switches and track endings. *)
Theorem changeStreams_stops_the_others :
  (forall (next : option SourceKind) (started : option MediaStream)
          (k : SourceKind),
      In (Stop k) (effects (changeStreams next started)) <-> next <> Some k)
  /\ (forall (A : Type) (H : CaptureAdapters A)
             (next : option SourceKind) (started : option MediaStream) (a : A),
        (forall k, next <> Some k ->
                   streaming k (trayStep a (Click next started)) = false)
        /\ atMostOneStreaming (trayStep a (Click next started)))
  /\ (forall (A : Type) (H : CaptureAdapters A) (es : list TrayEvent) (a : A),
        atMostOneStreaming a ->
        atMostOneStreaming (fold_left trayStep es a)).
Proof.
  split; [| split].
  - intros next started k.
    rewrite <- In_observable by reflexivity.
    rewrite changeStreams_observable.
    destruct next as [[|] |], started, k; simpl; split;
      try (intros _; congruence);
      try (intros _; tauto);
      try (intros H; exfalso;
           repeat (destruct H as [H | H]; try discriminate H); try exact H;
           try (apply H; reflexivity));
      intros H; try (exfalso; apply H; reflexivity); auto 6.
  - intros A H next started a. split.
    + intros k. apply click_stops_others.
    + apply click_atMostOne.
  - intros A H es a. apply tray_atMostOne.
Qed.

Lemma changeStreams_stops_the_others_witness :
  let es := [Click (Some Webcam) (Some 1%nat); Click (Some Screen) (Some 2%nat);
             TrackEnded Screen; Click (Some Webcam) None; Click None None] in
  streaming Webcam
    (trayStep ((true, true) : Flags) (Click (Some Screen) (Some 2%nat))) = false
  /\ atMostOneStreaming (fold_left trayStep es ((false, false) : Flags)).
Proof.
  intros es. split.
  - apply (proj1 (proj1 (proj2 changeStreams_stops_the_others)
                    Flags flagAdapters (Some Screen) (Some 2%nat) (true, true))).
    discriminate.
  - apply (proj2 (proj2 changeStreams_stops_the_others) Flags flagAdapters es).
    intros [H _]. discriminate H.
Defined.

(* ------------------------------------------------------------------ *)
(** ** Heartbeats along an execution *)

Lemma commit_timeouts (c : Component) (r : Render) :
  settleTimeouts (fst (commit c r)) =
    settleTimeouts c
    ++ (if sharing r && negb (wasScreenSharing r) then [r] else []).
Proof.
  rewrite commit_eq.
  destruct (wasScreenSharing r && negb (sharing r)) eqn:E; project_pairs.
  - rewrite !commitOnce_component. cbn [settleTimeouts].
    change (sharing (withState r (settled r))) with (sharing r).
    destruct (wasScreenSharing r), (sharing r); try discriminate E.
    simpl. rewrite !app_nil_r. reflexivity.
  - rewrite commitOnce_component. reflexivity.
Qed.

Lemma commit_armed (c : Component) (r : Render) : armed (fst (commit c r)).
Proof.
  unfold armed.
  pose proof (commit_spec c r) as (_ & Hr & _).
  rewrite commit_timeouts, Hr.
  change (sharing (withState r (settled r))) with (sharing r).
  intros Hs Hw. cbn [wasScreenSharing withState state settled] in Hw.
  rewrite Hs, andb_true_r in Hw. rewrite Hs, Hw. simpl.
  apply in_or_app. right. left.
  assert (Hfix : settled r = state r).
  { apply State_eqb_eq. rewrite settled_fixed, Hw. reflexivity. }
  rewrite Hfix. symmetry. apply withState_same.
Qed.

Lemma afterCallback_armed (c : Component) (t : list Effect) :
  armed c -> armed (fst (afterCallback c t)).
Proof.
  intros Ha. unfold afterCallback.
  destruct (State_eqb (reduce t (rendered c)) (rendered c)); [exact Ha |].
  pose proof (commit_armed c (withState (rendered c) (reduce t (rendered c)))) as H.
  destruct (commit c _). exact H.
Qed.

Lemma In_removeNth {A} (x y : A) (l : list A) : forall n : nat,
  nth_error l n = Some y -> x <> y -> In x l -> In x (removeNth n l).
Proof.
  induction l as [| a l IH]; intros n Hn Hxy Hin; [destruct Hin |].
  destruct n as [| n]; simpl in *.
  - injection Hn as ->. destruct Hin as [-> | Hin]; [congruence | exact Hin].
  - destruct Hin as [-> | Hin]; [left; reflexivity | right; eauto].
Qed.

Lemma step_armed (c : Component) (e : Event) :
  armed c -> settleReadsCaptured e -> armed (fst (step c e)).
Proof.
  intros Ha Hrd.
  destruct e as [i | volume | inVolume now | rd | n rd | rd now]; simpl step.
  - apply commit_armed.
  - apply afterCallback_armed, Ha.
  - apply afterCallback_armed, Ha.
  - destruct (validationInterval c); [apply afterCallback_armed |]; exact Ha.
  - simpl in Hrd. subst rd. cbn [observe].
    destruct (nth_error (settleTimeouts c) n) as [r0 |] eqn:En; [| exact Ha].
    unfold afterCallback. cbn [rendered].
    destruct (State_eqb _ _) eqn:E.
    + project_pairs. unfold armed. cbn [rendered settleTimeouts].
      intros Hs Hw.
      apply State_eqb_eq in E.
      assert (Hw' : wasScreenSharing
                      (reduce (effects (settleTimeoutCallback r0)) (rendered c))
                    = false) by (rewrite E; exact Hw).
      rewrite <- reduce_observable, settle_observable in Hw'.
      destruct (sharing r0) eqn:Es0.
      * destruct (mayNotify r0), (rendered c) as [ic [w ai us lt]];
          simpl in Hw'; discriminate Hw'.
      * apply In_removeNth with (y := r0); [exact En | | exact (Ha Hs Hw)].
        intros Heq. rewrite Heq in Hs. change (sharing r0 = true) in Hs.
        congruence.
    + match goal with
      | |- context [commit ?c' ?r'] =>
          pose proof (commit_armed c' r') as H; destruct (commit c' r')
      end.
      exact H.
  - destruct (tickInterval c); [apply afterCallback_armed |]; exact Ha.
Qed.

Lemma run_armed (es : list Event) : forall c : Component,
  armed c -> Forall settleReadsCaptured es -> armed (fst (run c es)).
Proof.
  induction es as [| e es IH]; intros c Ha Hrd; [exact Ha |].
  inversion Hrd as [| ? ? He Hes]; subst. simpl.
  pose proof (step_armed e Ha He) as H1.
  destruct (step c e) as [c1 t1]. cbn [fst] in H1.
  pose proof (IH c1 H1 Hes) as H2.
  destruct (run c1 es). exact H2.
Qed.

Lemma execution_armed (i : Inputs) (es : list Event) :
  Forall settleReadsCaptured es -> armed (fst (execution i es)).
Proof.
  intros Hrd. rewrite execution_fst.
  apply run_armed; [apply commit_armed | exact Hrd].
Qed.

(** C4.  Whenever the latest render of an execution did not validate
    (the session is not active), no tick interval is registered, and
    whatever happens next -- a timer firing, a volume sample, a render --
    sends no coaching trigger.  The same holds of the recorded flag:
    with adapter objects that are values of their render and timers firing
    in the browser's order, no coaching trigger goes out while
    [wasScreenSharing] is false. *)
Theorem heartbeat_only_while_active (i : Inputs) (es : list Event) :
  (sharing (rendered (fst (execution i es))) = false ->
   tickInterval (fst (execution i es)) = None
   /\ forall e : Event,
        count isHeartbeat (snd (step (fst (execution i es)) e)) = 0%nat)
  /\ (Forall settleReadsCaptured es ->
      wasScreenSharing (rendered (fst (execution i es))) = false ->
      forall e : Event,
        inTimerOrder (fst (execution i es)) e ->
        count isHeartbeat (snd (step (fst (execution i es)) e)) = 0%nat).
Proof.
  destruct (execution_spec i es) as (Hc & _ & _).
  split.
  - intros Hs. split.
    + rewrite (tick_current Hc), Hs. reflexivity.
    + intros e. rewrite (step_heartbeats e Hc), Hs. destruct e; reflexivity.
  - intros Hrd Hw e Ho.
    rewrite (step_heartbeats e Hc).
    destruct e as [| | | | | rd now]; try reflexivity.
    destruct (sharing (rendered (fst (execution i es)))) eqn:Hs; [| reflexivity].
    exfalso. apply Ho. apply (execution_armed i Hrd); assumption.
Qed.

Lemma heartbeat_only_while_active_witness :
  (let es := [SettleFires 0 AsCaptured; Rerender idle] in
   tickInterval (fst (execution screenShared es)) = None
   /\ count isHeartbeat
        (snd (step (fst (execution screenShared es)) (TickFires AsCaptured 99999)))
      = 0%nat)
  /\ (let es := [Rerender screenShared; Rerender idle] in
      wasScreenSharing (rendered (fst (execution idle es))) = false
      /\ List.length (settleTimeouts (fst (execution idle es))) = 1%nat
      /\ count isHeartbeat
           (snd (step (fst (execution idle es)) (TickFires AsCaptured 99999)))
         = 0%nat).
Proof.
  split.
  - intros es.
    destruct (proj1 (heartbeat_only_while_active screenShared es) eq_refl)
      as [Ht Hh].
    split; [exact Ht | apply Hh].
  - intros es. split; [reflexivity |]. split; [reflexivity |].
    apply (proj2 (heartbeat_only_while_active idle es)).
    + repeat constructor.
    + reflexivity.
    + intros [H | []]. discriminate H.
Defined.

(** Inside the quiet window after a user-speech start nothing is sent,
    whatever has happened since. *)
Lemma quiet_window_after_speech
    (i : Inputs) (es1 es2 : list Event) (inVolume : float) (t0 now : Z)
    (rd : Reads) :
  isUserSpeaking (rendered (fst (execution i es1))) = false ->
  PrimFloat.ltb 0.015 inVolume = true ->
  clockMonotone 0 (es1 ++ InputVolume inVolume t0 :: es2) ->
  now - t0 <= 10000 ->
  count isHeartbeat
    (snd (step (fst (execution i (es1 ++ InputVolume inVolume t0 :: es2)))
            (TickFires rd now))) = 0%nat.
Proof.
  intros Hus Hv Hmono Hnow.
  replace (es1 ++ InputVolume inVolume t0 :: es2)
    with ((es1 ++ [InputVolume inVolume t0]) ++ es2) in *
    by (rewrite <- app_assoc; reflexivity).
  pose proof (execution_monotone i _ _ Hmono) as Hle.
  rewrite execution_snoc, step_lastUserSpeechTime, Hus, Hv in Hle.
  cbn [negb andb] in Hle.
  destruct (execution_spec i ((es1 ++ [InputVolume inVolume t0]) ++ es2))
    as (Hc & _ & _).
  rewrite (step_heartbeats _ Hc).
  assert (Hg : spec_gate (currentStateRef
                       (fst (execution i
                               ((es1 ++ [InputVolume inVolume t0]) ++ es2))))
                 now = false).
  { unfold spec_gate, QUIET_WINDOW. rewrite (ref_current Hc). cbn [ref_lastUserSpeechTime updateRef].
    apply andb_false_iff. right. rewrite Z.gtb_ltb. apply Z.ltb_ge. lia. }
  rewrite Hg, !andb_false_r. reflexivity.
Qed.

(** C3, as amended.  On a heartbeat tick whose in-tick validation passes
    (the screen-capture or the webcam adapter reports [isStreaming]), the
    coaching trigger is sent exactly when neither the user nor the AI is
    marked speaking and more than 10000 ms have passed since the last
    user-speech start.  Inside the quiet window the tick leaves nothing
    behind, and whatever the gate says a tick is one message or nothing:
    it sets no state and registers no timer, so nothing is queued for a
    later tick.  Along an execution, with a clock that does not run
    backwards: no tick that falls within 10000 ms of a user-speech start
    sends a coaching trigger. *)
Theorem heartbeat_gate :
  (forall (r : Render) (current : CurrentState) (now : Z),
      anyAdapterStreaming r = true ->
      let t := effects (tickIntervalCallback r current now) in
      (In (ClientSend (coachingInstruction (activeGame r))) t <->
         ref_isUserSpeaking current = false /\ ref_isAISpeaking current = false
         /\ now - ref_lastUserSpeechTime current > 10000)
      /\ (now - ref_lastUserSpeechTime current <= 10000 -> observable t = [])
      /\ (observable t = [] \/
          observable t = [ClientSend (coachingInstruction (activeGame r))]))
  /\ (forall (i : Inputs) (es1 es2 : list Event) (inVolume : float)
             (t0 now : Z) (rd : Reads),
        isUserSpeaking (rendered (fst (execution i es1))) = false ->
        PrimFloat.ltb 0.015 inVolume = true ->
        clockMonotone 0 (es1 ++ InputVolume inVolume t0 :: es2) ->
        now - t0 <= 10000 ->
        count isHeartbeat
          (snd (step (fst (execution i (es1 ++ InputVolume inVolume t0 :: es2)))
                  (TickFires rd now))) = 0%nat).
Proof.
  split; [| exact quiet_window_after_speech].
  intros r current now Hs t.
  assert (Ht : observable t =
               if spec_gate current now
               then [ClientSend (coachingInstruction (activeGame r))] else [])
    by (subst t; rewrite tick_observable, Hs; reflexivity).
  split; [| split].
  - rewrite <- In_observable by reflexivity. rewrite Ht.
    change 10000 with QUIET_WINDOW. rewrite <- gate_true.
    destruct (spec_gate current now); simpl; intuition congruence.
  - intros Hq. rewrite Ht.
    destruct (spec_gate current now) eqn:G; [| reflexivity].
    apply gate_true in G. unfold QUIET_WINDOW in G. lia.
  - rewrite Ht. destruct (spec_gate current now); auto.
Qed.

Lemma heartbeat_gate_witness :
  (anyAdapterStreaming {| inputs := screenShared; state := active |} = true
   /\ observable
        (effects (tickIntervalCallback
                    {| inputs := screenShared; state := active |}
                    silentSince5000 12000)) = [])
  /\ (let es := [Rerender screenShared; SettleFires 0 AsCaptured] in
      count isHeartbeat
        (snd (step (fst (execution idle
                           (es ++ InputVolume 0.5 5000
                                  :: [InputVolume 0.001 6000])))
                (TickFires AsCaptured 12000))) = 0%nat
      /\ count isHeartbeat
           (snd (step (fst (execution idle
                              (es ++ InputVolume 0.5 5000
                                     :: [InputVolume 0.001 6000])))
                   (TickFires AsCaptured 15001))) = 1%nat).
Proof.
  split.
  - split; [reflexivity |].
    apply (proj1 heartbeat_gate {| inputs := screenShared; state := active |}
             silentSince5000 12000 eq_refl).
    simpl. lia.
  - intros es. split; [| reflexivity].
    apply (proj2 heartbeat_gate idle es [InputVolume 0.001 6000]
             0.5%float 5000 12000 AsCaptured).
    + reflexivity.
    + reflexivity.
    + simpl. lia.
    + lia.
Defined.

(* ================================================================== *)
(** * Results: the frame sampler *)
(* ================================================================== *)

Lemma indexOf_lower (c : Ascii.ascii) (s : string) : -1 <= indexOf c s.
Proof.
  induction s as [| a s IH]; simpl; [lia |].
  destruct (Ascii.eqb a c); [lia |].
  destruct (indexOf c s <? 0) eqn:E; [lia |].
  apply Z.ltb_ge in E. lia.
Qed.

Lemma indexOf_first (c : Ascii.ascii) (header payload : string) :
  indexOf c header = -1 ->
  indexOf c (String.append header (String c payload))
  = Z.of_nat (String.length header).
Proof.
  induction header as [| a h IH]; intros Hh.
  - simpl. rewrite Ascii.eqb_refl. reflexivity.
  - cbn [String.append indexOf String.length] in *.
    destruct (Ascii.eqb a c); [discriminate Hh |].
    destruct (indexOf c h <? 0) eqn:E.
    + assert (Hi : indexOf c h = -1)
        by (apply Z.ltb_lt in E; pose proof (indexOf_lower c h); lia).
      rewrite (IH Hi).
      destruct (Z.of_nat (String.length h) <? 0) eqn:E'; [| lia].
      apply Z.ltb_lt in E'. lia.
    + apply Z.ltb_ge in E. lia.
Qed.

Lemma drop_suffix (n : nat) : forall s : string,
  exists p : string, s = String.append p (drop n s).
Proof.
  induction n as [| n IH]; intros s.
  - exists EmptyString. destruct s; reflexivity.
  - destruct s as [| a s]; [exists EmptyString; reflexivity |].
    destruct (IH s) as [p Hp]. exists (String a p). simpl. rewrite <- Hp.
    reflexivity.
Qed.

Lemma length_append (a b : string) :
  String.length (String.append a b) = (String.length a + String.length b)%nat.
Proof. induction a as [| c a IH]; simpl; [reflexivity | rewrite IH; reflexivity]. Qed.

(** X1.  What is sent of a data URL is what follows its first comma: the
    header of the URL is dropped whatever it is, as long as it has no
    comma of its own.  A string without a comma is sent whole.  In every
    case what is sent is the end of the string. *)
Theorem frameData_spec :
  (forall header payload : string,
      indexOf comma header = -1 ->
      frameData (String.append header (String comma payload)) = payload)
  /\ (forall base64 : string,
        indexOf comma base64 = -1 -> frameData base64 = base64)
  /\ (forall base64 : string,
        exists skipped : string,
          base64 = String.append skipped (frameData base64)).
Proof.
  split; [| split].
  - intros header payload Hh. unfold frameData, slice.
    rewrite (@indexOf_first comma header payload Hh), length_append.
    cbn [String.length].
    destruct (Z.of_nat (String.length header) + 1 <? 0) eqn:E;
      [apply Z.ltb_lt in E; lia |].
    rewrite Z.min_l by lia.
    replace (Z.to_nat (Z.of_nat (String.length header) + 1))
      with (S (String.length header)) by lia.
    change (String.append header (String comma payload))
      with (String.append header (String.append (String comma EmptyString) payload)).
    clear. induction header as [| a h IH]; [destruct payload; reflexivity | exact IH].
  - intros base64 Hs. unfold frameData, slice. rewrite Hs. simpl.
    rewrite Z.min_l by lia. destruct base64; reflexivity.
  - intros base64. unfold frameData, slice. apply drop_suffix.
Qed.

Lemma frameData_spec_witness :
  frameData "data:image/jpeg;base64,/9j/4AAQSkZJRg==" = "/9j/4AAQSkZJRg=="%string
  /\ frameData "data:," = ""%string
  /\ frameData "no header" = "no header"%string.
Proof.
  split; [| split].
  - apply (proj1 frameData_spec "data:image/jpeg;base64"%string
             "/9j/4AAQSkZJRg=="%string).
    reflexivity.
  - apply (proj1 frameData_spec "data:"%string ""%string). reflexivity.
  - apply (proj1 (proj2 frameData_spec) "no header"%string). reflexivity.
Defined.

(** One call of the sampler, whatever the refs and the connection are:
    at most one frame and at most one timer. *)
Lemma sendVideoFrame_at_most_one
    (video : option HTMLVideoElement) (canvas connected : bool) :
  (count isFrame (effects (sendVideoFrame video canvas connected)) <= 1)%nat
  /\ (count isTimer (effects (sendVideoFrame video canvas connected)) <= 1)%nat.
Proof.
  destruct video as [v |]; [destruct canvas |].
  - rewrite <- (@count_observable isFrame
                  (effects (sendVideoFrame (Some v) true connected))),
      <- (@count_observable isTimer
            (effects (sendVideoFrame (Some v) true connected)))
      by reflexivity.
    rewrite sendVideoFrame_observable.
    destruct (0 <? _)%N, connected;
      cbv [count filter isFrame isTimer List.length app]; lia.
  - cbv [sendVideoFrame effects ret snd count filter List.length]. lia.
  - cbv [sendVideoFrame effects ret snd count filter List.length]. lia.
Qed.

(** X2.  A call of [sendVideoFrame] that finds the video or the canvas ref
    unset returns at once: it sends nothing and, connected or not, arms no
    timer, so that run of the sampler is over.  With both refs set the
    timer is re-armed exactly when the captured [connected] is true, frame
    or no frame, and a frame sent has the quarter-size dimensions of the
    video. *)
Theorem sendVideoFrame_refs
    (video : option HTMLVideoElement) (canvas connected : bool) :
  (video = None \/ canvas = false ->
   effects (sendVideoFrame video canvas connected) = [])
  /\ (forall v, video = Some v -> canvas = true ->
        registers sendVideoFrameCallback
          (effects (sendVideoFrame video canvas connected)) = connected
        /\ (forall m w h,
              In (SendRealtimeInput m w h)
                 (effects (sendVideoFrame video canvas connected)) ->
              w = quarter (videoWidth v) /\ h = quarter (videoHeight v)
              /\ In (DrawImage w h)
                    (effects (sendVideoFrame video canvas connected)))).
Proof.
  split.
  - intros [-> | ->]; [reflexivity | destruct video; reflexivity].
  - intros v -> ->. split.
    + rewrite <- registers_observable, sendVideoFrame_observable.
      destruct (0 <? _)%N, connected; reflexivity.
    + intros m w h Hin.
      rewrite <- In_observable in Hin by reflexivity.
      rewrite <- In_observable by reflexivity.
      rewrite sendVideoFrame_observable in *.
      destruct (0 <? _)%N, connected; cbv [app In] in *;
        repeat (destruct Hin as [Hin | Hin]; try discriminate Hin;
                try (injection Hin as _ <- <-; auto));
        try contradiction.
Qed.

Lemma sendVideoFrame_refs_witness :
  effects (sendVideoFrame None true true) = []
  /\ registers sendVideoFrameCallback
       (effects (sendVideoFrame
                   (Some {| videoWidth := 1280; videoHeight := 720 |}) true true))
     = true.
Proof.
  split.
  - apply (proj1 (sendVideoFrame_refs None true true)). left. reflexivity.
  - apply (proj2 (sendVideoFrame_refs
                    (Some {| videoWidth := 1280; videoHeight := 720 |}) true true)
             {| videoWidth := 1280; videoHeight := 720 |} eq_refl eq_refl).
Defined.





(* ================================================================== *)
(** * Results: the volume indicator *)
(* ================================================================== *)

(** X4.  The width written into [--volume] is never below 5 and never above
    8, whatever the input volume is (negative, huge, infinite), as long as
    [inVolume * 200] is a number; when it is not, the width is NaN. *)
Theorem volumeStyle_bounds (inVolume : float) :
  (PrimFloat.is_nan (PrimFloat.mul inVolume 200) = false ->
   PrimFloat.is_nan (volumeStyle inVolume) = false
   /\ PrimFloat.ltb (volumeStyle inVolume) 5 = false
   /\ PrimFloat.ltb 8 (volumeStyle inVolume) = false)
  /\ (PrimFloat.is_nan (PrimFloat.mul inVolume 200) = true ->
      PrimFloat.is_nan (volumeStyle inVolume) = true).
Proof.
  unfold volumeStyle. generalize (PrimFloat.mul inVolume 200). intros y.
  split.
  - intros Hy.
    assert (Hm : exists m, Math_min y 8 = m
                           /\ PrimFloat.is_nan m = false
                           /\ PrimFloat.ltb 8 m = false).
    { unfold Math_min. rewrite Hy.
      change (PrimFloat.is_nan 8) with false. cbn [orb].
      destruct (PrimFloat.ltb 8 y) eqn:E1;
        [eexists; split; [reflexivity | split; reflexivity] |].
      destruct (PrimFloat.ltb y 8);
        [eexists; split; [reflexivity | split; assumption] |].
      destruct (PrimFloat.get_sign y);
        eexists; (split; [reflexivity |]); split;
          first [assumption | reflexivity]. }
    destruct Hm as (m & -> & Hn & Hu).
    unfold Math_max. rewrite Hn.
    change (PrimFloat.is_nan 5) with false. cbn [orb].
    destruct (PrimFloat.ltb m 5) eqn:E2; [repeat split |].
    destruct (PrimFloat.ltb 5 m); [repeat split; assumption |].
    change (PrimFloat.get_sign 5) with false. cbv iota. repeat split.
  - intros Hy. unfold Math_min, Math_max. rewrite Hy. reflexivity.
Qed.

Lemma volumeStyle_bounds_witness :
  volumeStyle 0.03 = 6%float
  /\ PrimFloat.ltb 8 (volumeStyle 1000) = false
  /\ PrimFloat.ltb (volumeStyle (-3)) 5 = false.
Proof.
  split; [reflexivity |]. split.
  - apply (proj1 (volumeStyle_bounds 1000)). reflexivity.
  - apply (proj1 (volumeStyle_bounds (-3))). reflexivity.
Defined.

(* ================================================================== *)
(** * Results: the shell and the tray's buttons *)
(* ================================================================== *)

Lemma applyTray_observable (t : list Effect) : forall i : Inputs,
  fold_left applyTray (observable t) i = fold_left applyTray t i.
Proof.
  induction t as [| e t IH]; intros i; [reflexivity |].
  destruct e; simpl; apply IH.
Qed.

(** All a click on a media button does, console lines apart. *)
Lemma clickMedia_observable (i : Inputs) (k : SourceKind) (started : option MediaStream) :
  observable (snd (uiStep i (ClickMedia k started))) =
    match mediaButton k i with
    | Some next => observable (effects (changeStreams next started))
    | None => []
    end.
Proof. cbn [uiStep]. destruct (mediaButton k i); reflexivity. Qed.

Lemma clickMedia_state (i : Inputs) (k : SourceKind) (started : option MediaStream) :
  fst (uiStep i (ClickMedia k started)) =
    match mediaButton k i with
    | Some next =>
        fold_left applyTray (observable (effects (changeStreams next started))) i
    | None => i
    end.
Proof.
  cbn [uiStep]. destruct (mediaButton k i); [| reflexivity].
  cbn [fst]. symmetry. apply applyTray_observable.
Qed.

Lemma uiStep_sync (i : Inputs) (g : Gesture) :
  videoStream i = activeVideoStream i ->
  videoStream (fst (uiStep i g)) = activeVideoStream (fst (uiStep i g)).
Proof.
  intros Hs. destruct g as [game | k started | | b | w s].
  - cbn [uiStep]. destruct (gameSelector _); exact Hs.
  - rewrite clickMedia_state. destruct (mediaButton k i) as [next |]; [| exact Hs].
    rewrite changeStreams_observable.
    destruct next as [[|] |], started; simpl; auto.
  - exact Hs.
  - exact Hs.
  - exact Hs.
Qed.

(** X5.  The stream the tray plays and the stream the shell knows of are the
    same at every moment: both start null and every switch sets both, to
    the same stream, or neither. *)
Theorem streams_in_sync (gs : list Gesture) :
  videoStream (fst (uiRun freshShell gs))
  = activeVideoStream (fst (uiRun freshShell gs)).
Proof.
  assert (H : forall i, videoStream i = activeVideoStream i ->
                        videoStream (fst (uiRun i gs))
                        = activeVideoStream (fst (uiRun i gs))).
  { induction gs as [| g gs IH]; intros i Hs; [exact Hs |].
    cbn [uiRun]. pose proof (@uiStep_sync i g Hs) as H1.
    destruct (uiStep i g) as [i1 t1]. cbn [fst] in H1.
    specialize (IH i1 H1). destruct (uiRun i1 gs). exact IH. }
  apply H. reflexivity.
Qed.

Lemma uiStep_no_game (i : Inputs) (g : Gesture) :
  activeGame i = None ->
  count isStart (snd (uiStep i g)) = 0%nat.
Proof.
  intros Hg. destruct g as [game | k started | | b | w s];
    try reflexivity.
  - cbn [uiStep]. destruct (gameSelector _); reflexivity.
  - rewrite <- count_observable by reflexivity.
    rewrite clickMedia_observable. unfold mediaButton, MediaStreamButton.
    rewrite Hg. cbn [truthy negb].
    destruct (isStreaming (adapter k i)); [| reflexivity].
    rewrite changeStreams_observable. reflexivity.
Qed.

Lemma uiStep_disconnected (i : Inputs) (g : Gesture) :
  connected i = false -> activeGame i = None ->
  g <> ConnectionChanges true ->
  connected (fst (uiStep i g)) = false /\ activeGame (fst (uiStep i g)) = None.
Proof.
  intros Hc Hg Hne. destruct g as [game | k started | | b | w s].
  - cbn [uiStep AppContent gameSelector]. rewrite Hc. split; assumption.
  - rewrite clickMedia_state. destruct (mediaButton k i) as [next |];
      [| split; assumption].
    rewrite changeStreams_observable.
    destruct next as [[|] |], started; simpl; auto.
  - split; assumption.
  - destruct b; [congruence | split; [reflexivity | exact Hg]].
  - split; assumption.
Qed.

(** X6.  No capture starts before a game is chosen: while [activeGame] is
    null no gesture calls [start()], because a media button that is not
    streaming is disabled.  And a game can only be chosen once connected,
    so in a session that never connects no capture is ever started. *)
Theorem no_capture_without_game :
  (forall (i : Inputs) (g : Gesture),
      activeGame i = None -> count isStart (snd (uiStep i g)) = 0%nat)
  /\ (forall gs : list Gesture,
        Forall (fun g => g <> ConnectionChanges true) gs ->
        count isStart (snd (uiRun freshShell gs)) = 0%nat
        /\ activeGame (fst (uiRun freshShell gs)) = None).
Proof.
  split; [exact uiStep_no_game |].
  assert (H : forall gs i, connected i = false -> activeGame i = None ->
                Forall (fun g => g <> ConnectionChanges true) gs ->
                count isStart (snd (uiRun i gs)) = 0%nat
                /\ activeGame (fst (uiRun i gs)) = None).
  { induction gs as [| g gs IH]; intros i Hc Hg Hall.
    - split; [reflexivity | exact Hg].
    - inversion Hall as [| ? ? Hne Hrest]; subst. cbn [uiRun].
      pose proof (@uiStep_no_game i g Hg) as H0.
      destruct (@uiStep_disconnected i g Hc Hg Hne) as [Hc1 Hg1].
      destruct (uiStep i g) as [i1 t1]. cbn [fst snd] in *.
      destruct (IH i1 Hc1 Hg1 Hrest) as [H1 H2].
      destruct (uiRun i1 gs) as [i2 t2]. cbn [fst snd] in *.
      rewrite count_app. split; [lia | exact H2]. }
  intros gs. apply H; reflexivity.
Qed.

Lemma no_capture_without_game_witness :
  count isStart
    (snd (uiStep freshShell (ClickMedia Screen (Some 1%nat)))) = 0%nat
  /\ count isStart
       (snd (uiRun freshShell
               [ClickCard EAFC; ClickMedia Screen (Some 1%nat); ClickMic;
                ClickMedia Webcam (Some 2%nat)])) = 0%nat
  /\ count isStart
       (snd (uiRun freshShell
               [ConnectionChanges true; ClickCard EAFC;
                ClickMedia Screen (Some 1%nat)])) = 1%nat.
Proof.
  split; [| split].
  - apply (proj1 no_capture_without_game). reflexivity.
  - apply (proj2 no_capture_without_game).
    repeat constructor; discriminate.
  - reflexivity.
Defined.

(** X7.  The active game changes only by a click on a card of the selector,
    which is on screen only while connected with no stream showing; it
    then becomes the game of that card, the only card marked active.  Once
    a game is chosen no gesture unsets it. *)
Theorem game_selection (i : Inputs) (g : Gesture) :
  (activeGame (fst (uiStep i g)) <> activeGame i ->
   connected i = true /\ videoStream i = None
   /\ exists game, g = ClickCard game
                   /\ activeGame (fst (uiStep i g)) = Some game
                   /\ forall game', cardActive (activeGame (fst (uiStep i g))) game'
                                    = GameName_eqb game game')
  /\ (activeGame i <> None -> activeGame (fst (uiStep i g)) <> None).
Proof.
  destruct g as [game | k started | | b | w s].
  - cbn [uiStep AppContent gameSelector].
    destruct (connected i) eqn:Hc, (videoStream i) eqn:Hv;
      cbn [andb negb truthy fst]; split; try tauto.
    + intros _. split; [reflexivity |]. split; [reflexivity |].
      exists game. split; [reflexivity |]. split; reflexivity.
    + intros _. simpl. discriminate.
  - rewrite clickMedia_state.
    assert (Hg : activeGame
                   match mediaButton k i with
                   | Some next =>
                       fold_left applyTray
                         (observable (effects (changeStreams next started))) i
                   | None => i
                   end = activeGame i).
    { destruct (mediaButton k i) as [next |]; [| reflexivity].
      rewrite changeStreams_observable.
      destruct next as [[|] |], started; reflexivity. }
    rewrite Hg. split; [congruence | auto].
  - split; [intros H; exfalso; apply H; reflexivity | auto].
  - split; [intros H; exfalso; apply H; reflexivity | auto].
  - split; [intros H; exfalso; apply H; reflexivity | auto].
Qed.

Lemma game_selection_witness :
  activeGame
    (fst (uiStep (fst (uiStep freshShell (ConnectionChanges true)))
            (ClickCard StreetFighter6))) = Some StreetFighter6
  /\ connected (fst (uiStep freshShell (ConnectionChanges true))) = true
  /\ activeGame
       (fst (uiRun freshShell
               [ConnectionChanges true; ClickCard EAFC;
                ClickMedia Screen (Some 1%nat);
                ClickCard LeagueOfLegends])) = Some EAFC.
Proof.
  destruct (proj1 (game_selection
                     (fst (uiStep freshShell (ConnectionChanges true)))
                     (ClickCard StreetFighter6)))
    as (Hc & _ & game & Hgame & Hact & _); [discriminate |].
  injection Hgame as <-.
  split; [exact Hact |]. split; [exact Hc | reflexivity].
Defined.

(** X8.  The button of a source that is streaming always works, game or no
    game: its click nulls the stream on both sides, the tray's and the
    shell's, stops both adapters and starts nothing. *)
Theorem stop_button (i : Inputs) (k : SourceKind) (started : option MediaStream) :
  isStreaming (adapter k i) = true ->
  observable (snd (uiStep i (ClickMedia k started)))
  = [SetActiveVideoStream None; OnVideoStreamChange None; Stop Webcam; Stop Screen]
  /\ videoStream (fst (uiStep i (ClickMedia k started))) = None
  /\ activeVideoStream (fst (uiStep i (ClickMedia k started))) = None.
Proof.
  intros Hs. rewrite clickMedia_observable, clickMedia_state.
  unfold mediaButton, MediaStreamButton. rewrite Hs.
  rewrite changeStreams_observable. repeat split.
Qed.

Lemma stop_button_witness :
  observable
    (snd (uiStep
            {| webcam := off; screenCapture := on 7%nat;
               videoStream := Some 7%nat; activeVideoStream := Some 7%nat;
               activeGame := None; connected := false; muted := true |}
            (ClickMedia Screen None)))
  = [SetActiveVideoStream None; OnVideoStreamChange None; Stop Webcam; Stop Screen].
Proof. apply stop_button. reflexivity. Defined.

(** X9.  A capture the user refuses changes nothing on screen and still ends
    the other capture: when [start()] rejects, neither stream setter is
    called, so the tray and the shell keep the stream they had, one error
    is logged, and the adapter that was not clicked is stopped. *)
Theorem rejected_start (i : Inputs) (k : SourceKind) :
  isStreaming (adapter k i) = false -> activeGame i <> None ->
  fst (uiStep i (ClickMedia k None)) = i
  /\ count isStreamSetter (snd (uiStep i (ClickMedia k None))) = 0%nat
  /\ count isStop (snd (uiStep i (ClickMedia k None))) = 1%nat
  /\ In (Stop match k with Webcam => Screen | Screen => Webcam end)
        (snd (uiStep i (ClickMedia k None)))
  /\ ~ In (Stop k) (snd (uiStep i (ClickMedia k None)))
  /\ In (ConsoleError "Failed to start stream")
        (snd (uiStep i (ClickMedia k None))).
Proof.
  intros Hs Hg.
  assert (Hm : mediaButton k i = Some (Some k)).
  { unfold mediaButton, MediaStreamButton. rewrite Hs.
    destruct (activeGame i); [reflexivity | congruence]. }
  rewrite clickMedia_state.
  rewrite <- (@count_observable isStreamSetter (snd (uiStep i (ClickMedia k None))))
    by reflexivity.
  rewrite <- (@count_observable isStop (snd (uiStep i (ClickMedia k None))))
    by reflexivity.
  rewrite <- (@In_observable (Stop match k with Webcam => Screen | Screen => Webcam end)
                (snd (uiStep i (ClickMedia k None)))) by reflexivity.
  rewrite <- (@In_observable (Stop k) (snd (uiStep i (ClickMedia k None))))
    by reflexivity.
  rewrite <- (@In_observable (ConsoleError "Failed to start stream")
                (snd (uiStep i (ClickMedia k None)))) by reflexivity.
  rewrite clickMedia_observable, Hm, changeStreams_observable.
  destruct i as [w s vs avs ag c m]. destruct k; simpl.
  all: repeat split; auto.
  all: intros [H | [H | [H | []]]]; discriminate.
Qed.

Lemma rejected_start_witness :
  fst (uiStep
         {| webcam := on 3%nat; screenCapture := off;
            videoStream := Some 3%nat; activeVideoStream := Some 3%nat;
            activeGame := Some EAFC; connected := true; muted := false |}
         (ClickMedia Screen None))
  = {| webcam := on 3%nat; screenCapture := off;
       videoStream := Some 3%nat; activeVideoStream := Some 3%nat;
       activeGame := Some EAFC; connected := true; muted := false |}.
Proof.
  apply (@rejected_start
           {| webcam := on 3%nat; screenCapture := off;
              videoStream := Some 3%nat; activeVideoStream := Some 3%nat;
              activeGame := Some EAFC; connected := true; muted := false |}
           Screen); [reflexivity | discriminate].
Defined.

(* ================================================================== *)
(** * Results: the timers of the screen-sharing effect *)
(* ================================================================== *)

Lemma count_none (p q : Effect -> bool) (t : list Effect) :
  (forall e, p e = true -> q e = true) -> count q t = 0%nat -> count p t = 0%nat.
Proof.
  intros Hpq. unfold count. induction t as [| e t IH]; [reflexivity |].
  cbn [filter]. destruct (q e) eqn:Eq; cbn [List.length]; [discriminate |].
  destruct (p e) eqn:Ep; [apply Hpq in Ep; congruence | exact IH].
Qed.

Lemma intervalOp_none (t : list Effect) :
  count isIntervalOp t = 0%nat ->
  (forall cb, count (isSetInterval cb) t = 0%nat)
  /\ (forall cb, count (isClearInterval cb) t = 0%nat)
  /\ count isClearTimeout t = 0%nat.
Proof.
  intros H. split; [| split]; [intros cb | intros cb |];
    apply (@count_none _ isIntervalOp); try exact H;
    intros [] He; try discriminate He; reflexivity.
Qed.

(** The callbacks register and cancel nothing. *)
Lemma callbacks_intervals
    (r : Render) (current : CurrentState) (now : Z)
    (volume : float) (speaking : bool) :
  count isIntervalOp (effects (aiSpeakingEffect volume)) = 0%nat
  /\ count isIntervalOp (effects (userSpeakingEffect volume speaking now)) = 0%nat
  /\ count isIntervalOp (effects (validationIntervalCallback r)) = 0%nat
  /\ count isIntervalOp (effects (settleTimeoutCallback r)) = 0%nat
  /\ count isIntervalOp (effects (tickIntervalCallback r current now)) = 0%nat.
Proof.
  split; [reflexivity |]. split.
  { unfold userSpeakingEffect.
    destruct (PrimFloat.ltb 0.015 volume), speaking; reflexivity. }
  rewrite <- (@count_observable isIntervalOp (effects (validationIntervalCallback r))),
    <- (@count_observable isIntervalOp (effects (settleTimeoutCallback r))),
    <- (@count_observable isIntervalOp (effects (tickIntervalCallback r current now)))
    by reflexivity.
  rewrite validation_observable, settle_observable, tick_observable.
  destruct (wasScreenSharing r), (sharing r), (mayNotify r),
    (isStreaming (screenCapture r)), (isStreaming (webcam r)),
    (anyAdapterStreaming r && spec_gate current now); repeat split.
Qed.

Lemma commitOnce_intervals (c : Component) (r : Render) :
  let t := snd (commitOnce c r) in
  count (isSetInterval validationCallback) t = 1%nat
  /\ count (isClearInterval validationCallback) t
     = (if truthy (validationInterval c) then 1 else 0)%nat
  /\ count (isSetInterval tickCallback) t = (if sharing r then 1 else 0)%nat
  /\ count (isClearInterval tickCallback) t
     = (if truthy (validationInterval c) && truthy (tickInterval c)
        then 1 else 0)%nat
  /\ count isClearTimeout t = 0%nat.
Proof.
  intros t.
  rewrite <- (@count_observable (isSetInterval validationCallback) t),
    <- (@count_observable (isClearInterval validationCallback) t),
    <- (@count_observable (isSetInterval tickCallback) t),
    <- (@count_observable (isClearInterval tickCallback) t),
    <- (@count_observable isClearTimeout t) by reflexivity.
  subst t. rewrite commitOnce_observable, cleanup_observable, effect_observable.
  destruct (truthy (validationInterval c)), (truthy (tickInterval c)),
    (sharing r), (wasScreenSharing r), (mayNotify r); repeat split.
Qed.

Lemma commit_intervals (c : Component) (r : Render) :
  let t := snd (commit c r) in
  (count (isSetInterval validationCallback) t
   + (if truthy (validationInterval c) then 1 else 0)
   = count (isClearInterval validationCallback) t + 1)%nat
  /\ (count (isSetInterval tickCallback) t
      + (if truthy (validationInterval c) && truthy (tickInterval c)
         then 1 else 0)
      = count (isClearInterval tickCallback) t
        + (if sharing r then 1 else 0))%nat
  /\ count isClearTimeout t = 0%nat.
Proof.
  intros t. subst t. rewrite commit_eq.
  destruct (commitOnce_intervals c r) as (A1 & A2 & A3 & A4 & A5).
  destruct (wasScreenSharing r && negb (sharing r)) eqn:E.
  - destruct (commitOnce_intervals (fst (commitOnce c r)) (withState r (settled r)))
      as (B1 & B2 & B3 & B4 & B5).
    assert (Hs : sharing r = false)
      by (destruct (wasScreenSharing r), (sharing r); try discriminate E;
          reflexivity).
    assert (Hv : truthy (validationInterval (fst (commitOnce c r))) = true)
      by (rewrite commitOnce_component; reflexivity).
    assert (Hk : truthy (tickInterval (fst (commitOnce c r))) = false)
      by (rewrite commitOnce_component; cbn [tickInterval]; rewrite Hs;
          reflexivity).
    rewrite Hv in B2, B4. rewrite Hk in B4.
    change (sharing (withState r (settled r))) with (sharing r) in B3.
    rewrite Hs in A3, B3 |- *. cbn [andb] in B4.
    project_pairs. rewrite !count_app.
    destruct (truthy (validationInterval c)), (truthy (tickInterval c));
      cbn [andb] in *; lia.
  - destruct (truthy (validationInterval c)), (truthy (tickInterval c)),
      (sharing r); cbn [andb] in *; lia.
Qed.

Lemma afterCallback_intervals (c : Component) (t : list Effect) :
  consistent c -> count isIntervalOp t = 0%nat ->
  let t' := snd (afterCallback c t) in
  count (isSetInterval validationCallback) t'
  = count (isClearInterval validationCallback) t'
  /\ count (isSetInterval tickCallback) t' = count (isClearInterval tickCallback) t'
  /\ count isClearTimeout t' = 0%nat
  /\ sharing (rendered (fst (afterCallback c t))) = sharing (rendered c).
Proof.
  intros Hc Ht t'. subst t'.
  destruct (@intervalOp_none t Ht) as (Z1 & Z2 & Z3).
  pose proof (afterCallback_spec t Hc) as (_ & Hi & _).
  split; [| split; [| split]]; [| | | cbn zeta in Hi; rewrite Hi; reflexivity].
  all: unfold afterCallback;
    destruct (State_eqb (reduce t (rendered c)) (rendered c));
    [cbn [snd]; rewrite ?Z1, ?Z2, ?Z3; reflexivity |].
  all: pose proof (commit_intervals c (withState (rendered c) (reduce t (rendered c))))
         as (A1 & A2 & A3);
    change (sharing (withState (rendered c) (reduce t (rendered c))))
      with (sharing (rendered c)) in A2;
    rewrite (validation_current Hc), (tick_current Hc) in *;
    destruct (commit c (withState (rendered c) (reduce t (rendered c))))
      as [c2 t2];
    cbn [fst snd truthy andb] in *; rewrite !count_app, ?Z1, ?Z2, ?Z3;
    destruct (sharing (rendered c)); cbn [truthy] in *; lia.
Qed.

Lemma step_intervals (c : Component) (e : Event) :
  consistent c ->
  let t := snd (step c e) in
  count (isSetInterval validationCallback) t
  = count (isClearInterval validationCallback) t
  /\ (count (isSetInterval tickCallback) t
      + (if sharing (rendered c) then 1 else 0)
      = count (isClearInterval tickCallback) t
        + (if sharing (rendered (fst (step c e))) then 1 else 0))%nat
  /\ count isClearTimeout t = 0%nat.
Proof.
  intros Hc t. subst t.
  assert (Hcb : forall (c0 : Component) (t : list Effect),
             consistent c0 -> rendered c0 = rendered c ->
             count isIntervalOp t = 0%nat ->
             count (isSetInterval validationCallback) (snd (afterCallback c0 t))
             = count (isClearInterval validationCallback) (snd (afterCallback c0 t))
             /\ (count (isSetInterval tickCallback) (snd (afterCallback c0 t))
                 + (if sharing (rendered c) then 1 else 0)
                 = count (isClearInterval tickCallback) (snd (afterCallback c0 t))
                   + (if sharing (rendered (fst (afterCallback c0 t)))
                      then 1 else 0))%nat
             /\ count isClearTimeout (snd (afterCallback c0 t)) = 0%nat).
  { intros c0 t Hc0 Hr Ht.
    destruct (@afterCallback_intervals c0 t Hc0 Ht) as (B1 & B2 & B3 & B4).
    rewrite B4, Hr. split; [exact B1 |]. split; [lia | exact B3]. }
  destruct e as [i | volume | inVolume now | rd | n rd | rd now]; cbn [step].
  - pose proof (commit_intervals c {| inputs := i; state := rendered c |})
      as (A1 & A2 & A3).
    pose proof (commit_spec c {| inputs := i; state := rendered c |})
      as (_ & Hr & _).
    cbn zeta in Hr. rewrite Hr.
    change (sharing (withState {| inputs := i; state := rendered c |}
                       (settled {| inputs := i; state := rendered c |})))
      with (sharing i).
    change (sharing {| inputs := i; state := rendered c |}) with (sharing i) in A2.
    rewrite (validation_current Hc), (tick_current Hc) in *.
    destruct (sharing (rendered c)); cbn [truthy andb] in *;
      (split; [lia |]; split; [lia | exact A3]).
  - apply Hcb; [exact Hc | reflexivity |].
    apply (callbacks_intervals (rendered c) (currentStateRef c) 0 volume false).
  - apply Hcb; [exact Hc | reflexivity |].
    apply (callbacks_intervals (rendered c) (currentStateRef c) now inVolume
             (isUserSpeaking (rendered c))).
  - rewrite (validation_current Hc).
    apply Hcb; [exact Hc | reflexivity |].
    apply (callbacks_intervals (observe rd (rendered c)) (currentStateRef c) 0
             0%float false).
  - destruct (nth_error (settleTimeouts c) n) as [r |].
    + apply Hcb;
        [apply consistent_without_timeout; exact Hc | reflexivity |].
      apply (callbacks_intervals (observe rd r) (currentStateRef c) 0
               0%float false).
    + cbn [fst snd]. split; [reflexivity |]. split; reflexivity.
  - rewrite (tick_current Hc). destruct (sharing (rendered c)) eqn:Es.
    + apply Hcb; [exact Hc | reflexivity |].
      apply (callbacks_intervals (observe rd (rendered c)) (currentStateRef c) now
               0%float false).
    + cbn [fst snd]. rewrite Es. split; [reflexivity |]. split; reflexivity.
Qed.

Lemma run_intervals (es : list Event) : forall c : Component,
  consistent c ->
  let t := snd (run c es) in
  count (isSetInterval validationCallback) t
  = count (isClearInterval validationCallback) t
  /\ (count (isSetInterval tickCallback) t
      + (if sharing (rendered c) then 1 else 0)
      = count (isClearInterval tickCallback) t
        + (if sharing (rendered (fst (run c es))) then 1 else 0))%nat
  /\ count isClearTimeout t = 0%nat.
Proof.
  induction es as [| e es IH]; intros c Hc; cbn [run].
  - cbn [fst snd]. split; [reflexivity |]. split; reflexivity.
  - pose proof (@step_intervals c e Hc) as (A1 & A2 & A3).
    pose proof (@step_spec c e Hc) as (Hc1 & _).
    destruct (step c e) as [c1 t1]. cbn [fst snd] in A1, A2, A3, Hc1.
    pose proof (IH c1 Hc1) as (B1 & B2 & B3).
    destruct (run c1 es) as [c2 t2]. cbn [fst snd] in B1, B2, B3 |- *.
    rewrite !count_app. split; [lia |]. split; [lia | lia].
Qed.

(** X10.  The effect leaks no interval and cancels no timeout.  Along every
    execution, from mount on, each registration of the validation interval
    but the last has been cancelled, so exactly one is live; the same
    holds for the heartbeat interval while the latest render validates,
    and none is live while it does not.  No call ever cancels a timeout,
    so a settle timeout, once armed, always fires. *)
Theorem intervals_balanced (i : Inputs) (es : list Event) :
  let t := snd (execution i es) in
  count (isSetInterval validationCallback) t
  = (count (isClearInterval validationCallback) t + 1)%nat
  /\ count (isSetInterval tickCallback) t
     = (count (isClearInterval tickCallback) t
        + (if sharing (rendered (fst (execution i es))) then 1 else 0))%nat
  /\ count isClearTimeout t = 0%nat.
Proof.
  unfold execution.
  pose proof (commit_intervals (unmounted i) {| inputs := i; state := initialState |})
    as (A1 & A2 & A3).
  pose proof (commit_spec (unmounted i) {| inputs := i; state := initialState |})
    as (Hc0 & Hr0 & _).
  cbn [unmounted validationInterval tickInterval truthy andb] in A1, A2.
  change (sharing {| inputs := i; state := initialState |}) with (sharing i) in A2.
  assert (Hs0 : sharing (rendered (fst (commit (unmounted i)
                                          {| inputs := i; state := initialState |})))
                = sharing i).
  { cbn zeta in Hr0. rewrite Hr0. reflexivity. }
  destruct (commit (unmounted i) _) as [c0 t0].
  cbn [fst snd] in A1, A2, A3, Hc0, Hs0.
  pose proof (@run_intervals es c0 Hc0) as (B1 & B2 & B3).
  destruct (run c0 es) as [c t]. cbn [fst snd] in B1, B2, B3 |- *.
  rewrite Hs0 in B2. rewrite !count_app.
  split; [lia |]. split; [lia | lia].
Qed.

(* ================================================================== *)
(** * Results: the re-checks under captured reads *)
(* ================================================================== *)

(** X11.  A validation poll that reads the adapter objects as its render
    received them never acts.  In every state an execution reaches, the
    poll of the live interval emits nothing but console lines and leaves
    the component as it was: a render that would fail the poll with the
    flag still set has already reported the stop itself.  The forced stop
    can only come from adapter objects that changed under the closure. *)
Theorem validation_poll_idle (i : Inputs) (es : list Event) :
  step (fst (execution i es)) (ValidationFires AsCaptured)
  = (fst (execution i es),
     effects (validationIntervalCallback (rendered (fst (execution i es)))))
  /\ observable (snd (step (fst (execution i es)) (ValidationFires AsCaptured)))
     = [].
Proof.
  destruct (execution_spec i es) as (Hc & _). cbn zeta in Hc.
  set (c := fst (execution i es)) in *.
  assert (Ho : observable (effects (validationIntervalCallback (rendered c))) = []).
  { rewrite validation_observable, (no_pending_stop Hc). reflexivity. }
  assert (Hs : step c (ValidationFires AsCaptured)
               = (c, effects (validationIntervalCallback (rendered c)))).
  { cbn [step]. rewrite (validation_current Hc). cbn [observe].
    unfold afterCallback.
    rewrite <- reduce_observable, Ho. cbn [reduce fold_left].
    rewrite State_eqb_refl. reflexivity. }
  split; [exact Hs |]. rewrite Hs. exact Ho.
Qed.

Lemma Forall_removeNth {A} (P : A -> Prop) (l : list A) : forall n : nat,
  Forall P l -> Forall P (removeNth n l).
Proof.
  induction l as [| x l IH]; intros n H; destruct n; cbn [removeNth];
    try exact H; inversion H; subst; [assumption |].
  constructor; [assumption | apply IH; assumption].
Qed.

Lemma commit_pending (c : Component) (r : Render) :
  pendingOnRisingEdge c -> pendingOnRisingEdge (fst (commit c r)).
Proof.
  unfold pendingOnRisingEdge. intros H. rewrite commit_timeouts.
  apply Forall_app. split; [exact H |].
  destruct (sharing r) eqn:Es, (wasScreenSharing r) eqn:Ew; cbn [andb negb];
    constructor; auto.
Qed.

Lemma afterCallback_pending (c : Component) (t : list Effect) :
  pendingOnRisingEdge c -> pendingOnRisingEdge (fst (afterCallback c t)).
Proof.
  intros H. unfold afterCallback.
  destruct (State_eqb (reduce t (rendered c)) (rendered c)); [exact H |].
  pose proof (@commit_pending c (withState (rendered c) (reduce t (rendered c))) H)
    as H'.
  destruct (commit c _). exact H'.
Qed.

Lemma step_pending (c : Component) (e : Event) :
  pendingOnRisingEdge c -> pendingOnRisingEdge (fst (step c e)).
Proof.
  intros H. destruct e as [i | volume | inVolume now | rd | n rd | rd now];
    cbn [step].
  - apply commit_pending. exact H.
  - apply afterCallback_pending. exact H.
  - apply afterCallback_pending. exact H.
  - destruct (validationInterval c); [apply afterCallback_pending |]; exact H.
  - destruct (nth_error (settleTimeouts c) n); [| exact H].
    apply afterCallback_pending. unfold pendingOnRisingEdge.
    cbn [settleTimeouts]. apply Forall_removeNth. exact H.
  - destruct (tickInterval c); [apply afterCallback_pending |]; exact H.
Qed.

Lemma run_pending (es : list Event) : forall c : Component,
  pendingOnRisingEdge c -> pendingOnRisingEdge (fst (run c es)).
Proof.
  induction es as [| e es IH]; intros c H; cbn [run]; [exact H |].
  pose proof (@step_pending c e H) as H1.
  destruct (step c e) as [c1 t1]. cbn [fst] in H1.
  pose proof (IH c1 H1) as H2.
  destruct (run c1 es) as [c2 t2]. exact H2.
Qed.

Lemma execution_pending (i : Inputs) (es : list Event) :
  pendingOnRisingEdge (fst (execution i es)).
Proof.
  rewrite execution_fst. apply run_pending. apply commit_pending.
  constructor.
Qed.

(** X12.  The re-check of a settle timeout cannot fail on captured reads.  Every
    timeout that is pending in a state an execution reaches was armed by
    a render that validated with the flag false; when it fires and reads
    the adapter objects as that render received them, it dispatches
    [screenSharingStarted] once, whatever has been rendered since, and
    the flag it sets survives the re-render only if the latest render
    still validates. *)
Theorem settle_recheck_on_captured_reads
    (i : Inputs) (es : list Event) (n : nat) (r : Render) :
  nth_error (settleTimeouts (fst (execution i es))) n = Some r ->
  sharing r = true /\ wasScreenSharing r = false
  /\ count isStarted
       (snd (step (fst (execution i es)) (SettleFires n AsCaptured))) = 1%nat
  /\ wasScreenSharing
       (rendered (fst (step (fst (execution i es)) (SettleFires n AsCaptured))))
     = sharing (rendered (fst (execution i es))).
Proof.
  intros Hn.
  destruct (execution_spec i es) as (Hc & _). cbn zeta in Hc.
  pose proof (execution_pending i es) as Hp.
  set (c := fst (execution i es)) in *.
  unfold pendingOnRisingEdge in Hp. rewrite Forall_forall in Hp.
  destruct (Hp r (nth_error_In _ _ Hn)) as [Hs Hw].
  split; [exact Hs |]. split; [exact Hw |].
  cbn [step]. rewrite Hn. cbn [observe].
  pose proof (afterCallback_spec
                (effects (settleTimeoutCallback r))
                (consistent_without_timeout (removeNth n (settleTimeouts c)) Hc))
    as (_ & _ & Hst & _ & _ & _ & Hcount).
  cbn zeta in Hst, Hcount. cbn [rendered] in Hst, Hcount.
  destruct (settle_trace r false) as (_ & _ & _ & H4). cbn zeta in H4.
  rewrite Hs in H4.
  split; [exact (eq_trans Hcount H4) |].
  change (wasScreenSharing (rendered ?x)) with (wasScreenSharing (state (rendered x))).
  rewrite Hst. unfold settled, withState. cbn [wasScreenSharing state inputs].
  rewrite reduce_was, <- wasAfter_observable, settle_observable, Hs.
  destruct (mayNotify r); reflexivity.
Qed.

Lemma settle_recheck_on_captured_reads_witness :
  sharing screenShared = true
  /\ count isStarted
       (snd (step (fst (execution idle [Rerender screenShared; Rerender idle]))
               (SettleFires 0 AsCaptured))) = 1%nat
  /\ wasScreenSharing
       (rendered
          (fst (step (fst (execution idle [Rerender screenShared; Rerender idle]))
                  (SettleFires 0 AsCaptured)))) = false.
Proof.
  destruct (@settle_recheck_on_captured_reads idle
              [Rerender screenShared; Rerender idle] 0%nat
              {| inputs := screenShared; state := initialState |} eq_refl)
    as (H1 & _ & H3 & H4).
  split; [exact H1 |]. split; [exact H3 | exact H4].
Defined.

(* ================================================================== *)
(** * Results: the flag and its announcement *)
(* ================================================================== *)

Lemma risingEdges_le (t : list Effect) : forall w : bool,
  (risingEdges w t <= count isFlagRaised t)%nat.
Proof.
  unfold count. induction t as [| e t IH]; intros w; [apply le_n |].
  destruct e as [| | | b | | | | | | | | | | | | | | | | |];
    cbn [risingEdges filter isFlagRaised]; try apply IH.
  specialize (IH b).
  destruct w, b; cbn [negb andb List.length]; lia.
Qed.

Lemma commit_flag (c : Component) (r : Render) :
  count isFlagRaised (snd (commit c r)) = 0%nat.
Proof.
  assert (H : forall c r, count isFlagRaised (snd (commitOnce c r)) = 0%nat).
  { intros c0 r0.
    rewrite <- (@count_observable isFlagRaised (snd (commitOnce c0 r0)))
      by reflexivity.
    rewrite commitOnce_observable, cleanup_observable, effect_observable.
    destruct (truthy (validationInterval c0)), (truthy (tickInterval c0)),
      (sharing r0), (wasScreenSharing r0), (mayNotify r0); reflexivity. }
  rewrite commit_eq.
  destruct (wasScreenSharing r && negb (sharing r)); [| apply H].
  project_pairs. rewrite count_app, !H. reflexivity.
Qed.

Lemma afterCallback_flag (c : Component) (t : list Effect) :
  count isFlagRaised (snd (afterCallback c t)) = count isFlagRaised t.
Proof.
  unfold afterCallback.
  destruct (State_eqb (reduce t (rendered c)) (rendered c)); [reflexivity |].
  pose proof (commit_flag c (withState (rendered c) (reduce t (rendered c)))) as H.
  destruct (commit c _) as [c' t']. cbn [snd] in H |- *.
  rewrite count_app, H. lia.
Qed.

Lemma callbacks_flag
    (r : Render) (current : CurrentState) (now : Z)
    (volume : float) (speaking : bool) :
  count isFlagRaised (effects (aiSpeakingEffect volume)) = 0%nat
  /\ count isFlagRaised (effects (userSpeakingEffect volume speaking now)) = 0%nat
  /\ count isFlagRaised (effects (validationIntervalCallback r)) = 0%nat
  /\ count isFlagRaised (effects (settleTimeoutCallback r))
     = (if sharing r then 1 else 0)%nat
  /\ count isFlagRaised (effects (tickIntervalCallback r current now)) = 0%nat.
Proof.
  split; [reflexivity |]. split.
  { unfold userSpeakingEffect.
    destruct (PrimFloat.ltb 0.015 volume), speaking; reflexivity. }
  rewrite <- (@count_observable isFlagRaised (effects (validationIntervalCallback r))),
    <- (@count_observable isFlagRaised (effects (settleTimeoutCallback r))),
    <- (@count_observable isFlagRaised (effects (tickIntervalCallback r current now)))
    by reflexivity.
  rewrite validation_observable, settle_observable, tick_observable.
  destruct (wasScreenSharing r), (sharing r), (mayNotify r),
    (isStreaming (screenCapture r)), (isStreaming (webcam r)),
    (anyAdapterStreaming r && spec_gate current now); repeat split.
Qed.

Lemma step_flag (c : Component) (e : Event) :
  consistent c ->
  count isStarted (snd (step c e)) = count isFlagRaised (snd (step c e)).
Proof.
  intros Hc.
  assert (Hcb : forall (c0 : Component) (t : list Effect),
             consistent c0 -> count isStarted t = count isFlagRaised t ->
             count isStarted (snd (afterCallback c0 t))
             = count isFlagRaised (snd (afterCallback c0 t))).
  { intros c0 t Hc0 Ht. rewrite afterCallback_flag, <- Ht.
    pose proof (afterCallback_spec t Hc0) as (_ & _ & _ & _ & _ & _ & Hs).
    exact Hs. }
  destruct e as [i | volume | inVolume now | rd | n rd | rd now]; cbn [step].
  - rewrite commit_flag.
    pose proof (commit_spec c {| inputs := i; state := rendered c |})
      as (_ & _ & _ & _ & _ & Hs).
    exact Hs.
  - apply Hcb; [exact Hc | reflexivity].
  - apply Hcb; [exact Hc |].
    destruct (speech_traces inVolume inVolume (isUserSpeaking (rendered c)) now
                false) as [_ (_ & _ & _ & H4)].
    destruct (callbacks_flag (rendered c) (currentStateRef c) now inVolume
                (isUserSpeaking (rendered c))) as (_ & F2 & _).
    rewrite H4, F2. reflexivity.
  - rewrite (validation_current Hc). apply Hcb; [exact Hc |].
    destruct (validation_trace (observe rd (rendered c))) as (_ & _ & H3).
    destruct (callbacks_flag (observe rd (rendered c)) (currentStateRef c) 0
                0%float false) as (_ & _ & F3 & _).
    cbn zeta in H3. rewrite H3, F3. reflexivity.
  - destruct (nth_error (settleTimeouts c) n) as [r |]; [| reflexivity].
    apply Hcb; [apply consistent_without_timeout; exact Hc |].
    destruct (settle_trace (observe rd r) false) as (_ & _ & _ & H4).
    destruct (callbacks_flag (observe rd r) (currentStateRef c) 0
                0%float false) as (_ & _ & _ & F4 & _).
    cbn zeta in H4. rewrite H4, F4. reflexivity.
  - destruct (tickInterval c) as [r |]; [| reflexivity].
    apply Hcb; [exact Hc |].
    destruct (tick_trace (observe rd r) (currentStateRef c) now false)
      as (_ & _ & H3 & _).
    destruct (callbacks_flag (observe rd r) (currentStateRef c) now
                0%float false) as (_ & _ & _ & _ & F5).
    cbn zeta in H3. rewrite H3, F5. reflexivity.
Qed.

Lemma run_flag (es : list Event) : forall c : Component,
  consistent c ->
  count isStarted (snd (run c es)) = count isFlagRaised (snd (run c es)).
Proof.
  induction es as [| e es IH]; intros c Hc; cbn [run]; [reflexivity |].
  pose proof (@step_flag c e Hc) as H1.
  pose proof (@step_spec c e Hc) as (Hc1 & _).
  destruct (step c e) as [c1 t1]. cbn [fst snd] in H1, Hc1.
  pose proof (IH c1 Hc1) as H2.
  destruct (run c1 es) as [c2 t2]. cbn [snd] in H2 |- *.
  rewrite !count_app. lia.
Qed.

(** X13.  The flag never rises unannounced.  Along every execution each write
    of [true] into [wasScreenSharing] comes with one [screenSharingStarted]
    event and the other way round, so the session is announced at least
    once for every time the flag goes from false to true. *)
Theorem started_for_every_rise (i : Inputs) (es : list Event) :
  count isStarted (snd (execution i es))
  = count isFlagRaised (snd (execution i es))
  /\ (risingEdges false (snd (execution i es))
      <= count isStarted (snd (execution i es)))%nat.
Proof.
  assert (H : count isStarted (snd (execution i es))
              = count isFlagRaised (snd (execution i es))).
  { unfold execution.
    pose proof (commit_spec (unmounted i) {| inputs := i; state := initialState |})
      as (Hc0 & _ & _ & _ & _ & Hs0).
    pose proof (commit_flag (unmounted i) {| inputs := i; state := initialState |})
      as Hf0.
    destruct (commit (unmounted i) _) as [c0 t0]. cbn [fst snd] in Hc0, Hs0, Hf0.
    pose proof (@run_flag es c0 Hc0) as H1.
    destruct (run c0 es) as [c t]. cbn [snd] in H1 |- *.
    rewrite !count_app. lia. }
  split; [exact H |]. rewrite H. apply risingEdges_le.
Qed.

(* ================================================================== *)
(** * Results: the speech tracker and the quiet window *)
(* ================================================================== *)

Lemma step_isUserSpeaking (c : Component) (inVolume : float) (now : Z) :
  isUserSpeaking (rendered (fst (step c (InputVolume inVolume now))))
  = PrimFloat.ltb 0.015 inVolume.
Proof.
  cbn [step].
  destruct (afterCallback_state c
              (effects (userSpeakingEffect inVolume
                          (isUserSpeaking (rendered c)) now)))
    as (_ & H2 & _).
  cbn zeta in H2.
  change (isUserSpeaking (rendered ?x)) with (isUserSpeaking (state (rendered x))).
  rewrite H2, userSpeaking_reduce.
  destruct (isUserSpeaking (state (rendered c))),
    (PrimFloat.ltb 0.015 inVolume); reflexivity.
Qed.

(** X14.  After a volume sample has been handled, the speaking flag is the
    threshold test of that sample, whatever the flag was before: above
    0.015 for the user, above 0.01 for the coach, both strict.  The run of
    the user's effect that follows the change of its own flag calls no
    state setter, so the tracker comes to rest after one sample. *)
Theorem speech_flags_follow_threshold (c : Component) :
  (forall (inVolume : float) (now : Z),
      isUserSpeaking (rendered (fst (step c (InputVolume inVolume now))))
      = PrimFloat.ltb 0.015 inVolume)
  /\ (forall volume : float,
        isAISpeaking (rendered (fst (step c (OutputVolume volume))))
        = PrimFloat.ltb 0.01 volume)
  /\ (forall (inVolume : float) (now : Z),
        count isStateSetter
          (effects (userSpeakingEffect inVolume (PrimFloat.ltb 0.015 inVolume) now))
        = 0%nat).
Proof.
  split; [| split].
  - intros inVolume now. apply step_isUserSpeaking.
  - intros volume. cbn [step].
    destruct (afterCallback_state c (effects (aiSpeakingEffect volume)))
      as (_ & _ & H3).
    cbn zeta in H3.
    change (isAISpeaking (rendered ?x)) with (isAISpeaking (state (rendered x))).
    rewrite H3. reflexivity.
  - intros inVolume now. unfold userSpeakingEffect.
    destruct (PrimFloat.ltb 0.015 inVolume); reflexivity.
Qed.

Lemma callbacks_keep_isUserSpeaking
    (r : Render) (current : CurrentState) (now : Z) (volume : float) (s : State) :
  isUserSpeaking (reduce (effects (validationIntervalCallback r)) s)
  = isUserSpeaking s
  /\ isUserSpeaking (reduce (effects (settleTimeoutCallback r)) s)
     = isUserSpeaking s
  /\ isUserSpeaking (reduce (effects (tickIntervalCallback r current now)) s)
     = isUserSpeaking s
  /\ isUserSpeaking (reduce (effects (aiSpeakingEffect volume)) s)
     = isUserSpeaking s.
Proof.
  rewrite <- (reduce_observable (effects (validationIntervalCallback r))),
    <- (reduce_observable (effects (settleTimeoutCallback r))),
    <- (reduce_observable (effects (tickIntervalCallback r current now))).
  rewrite validation_observable, settle_observable, tick_observable.
  destruct (wasScreenSharing r), (sharing r), (mayNotify r),
    (isStreaming (screenCapture r)), (isStreaming (webcam r)),
    (anyAdapterStreaming r && spec_gate current now); repeat split.
Qed.

(** Only an input sample moves the user's speaking flag. *)
Lemma step_isUserSpeaking_eq (c : Component) (e : Event) :
  isUserSpeaking (rendered (fst (step c e))) =
    match e with
    | InputVolume inVolume _ => PrimFloat.ltb 0.015 inVolume
    | _ => isUserSpeaking (rendered c)
    end.
Proof.
  destruct e as [i | volume | inVolume now | rd | n rd | rd now].
  - cbn [step].
    pose proof (commit_spec c {| inputs := i; state := rendered c |})
      as (_ & Hr & _).
    cbn zeta in Hr. rewrite Hr. reflexivity.
  - cbn [step].
    destruct (afterCallback_state c (effects (aiSpeakingEffect volume)))
      as (_ & H & _).
    exact H.
  - apply step_isUserSpeaking.
  - cbn [step]. destruct (validationInterval c) as [r |]; [| reflexivity].
    destruct (afterCallback_state c
                (effects (validationIntervalCallback (observe rd r))))
      as (_ & H & _).
    etransitivity; [exact H |].
    apply (callbacks_keep_isUserSpeaking (observe rd r)
             (currentStateRef c) 0 0%float).
  - cbn [step]. destruct (nth_error (settleTimeouts c) n) as [r |];
      [| reflexivity].
    match goal with
    | |- context [afterCallback ?c' ?t] =>
        destruct (afterCallback_state c' t) as (_ & H & _)
    end.
    etransitivity; [exact H |].
    apply (callbacks_keep_isUserSpeaking (observe rd r)
             (currentStateRef c) 0 0%float).
  - cbn [step]. destruct (tickInterval c) as [r |]; [| reflexivity].
    destruct (afterCallback_state c
                (effects (tickIntervalCallback (observe rd r)
                            (currentStateRef c) now)))
      as (_ & H & _).
    etransitivity; [exact H |].
    apply (callbacks_keep_isUserSpeaking (observe rd r)
             (currentStateRef c) now 0%float).
Qed.

Lemma run_during_speech (es : list Event) : forall c : Component,
  isUserSpeaking (rendered c) = true ->
  Forall speechGoesOn es ->
  isUserSpeaking (rendered (fst (run c es))) = true
  /\ lastUserSpeechTime (rendered (fst (run c es)))
     = lastUserSpeechTime (rendered c).
Proof.
  induction es as [| e es IH]; intros c Hu Hall; cbn [run].
  - split; [exact Hu | reflexivity].
  - inversion Hall as [| ? ? He Hrest]; subst.
    pose proof (step_isUserSpeaking_eq c e) as H1.
    pose proof (step_lastUserSpeechTime c e) as H2.
    assert (Hu1 : isUserSpeaking (rendered (fst (step c e))) = true).
    { rewrite H1. destruct e; try exact Hu. exact He. }
    assert (Hl1 : lastUserSpeechTime (rendered (fst (step c e)))
                  = lastUserSpeechTime (rendered c)).
    { rewrite H2. destruct e; try reflexivity. rewrite Hu. reflexivity. }
    destruct (step c e) as [c1 t1]. cbn [fst] in Hu1, Hl1.
    destruct (IH c1 Hu1 Hrest) as [A B].
    destruct (run c1 es) as [c2 t2]. cbn [fst] in A, B |- *.
    split; [exact A | rewrite B; exact Hl1].
Qed.

(** X15.  [lastUserSpeechTime] is the time the utterance began.  From a
    state in which the user is marked speaking, and as long as every input
    sample stays above the threshold, nothing that happens (renders,
    samples, the coach's volume, timers) clears the flag or moves
    [lastUserSpeechTime]; and the sample that ends the utterance clears
    the flag and still leaves [lastUserSpeechTime] where it was. *)
Theorem lastUserSpeechTime_is_speech_start
    (c : Component) (es : list Event) (inVolume : float) (now : Z) :
  isUserSpeaking (rendered c) = true ->
  Forall speechGoesOn es ->
  PrimFloat.ltb 0.015 inVolume = false ->
  (isUserSpeaking (rendered (fst (run c es))) = true
   /\ lastUserSpeechTime (rendered (fst (run c es)))
      = lastUserSpeechTime (rendered c))
  /\ (isUserSpeaking
        (rendered (fst (step (fst (run c es)) (InputVolume inVolume now))))
      = false
      /\ lastUserSpeechTime
           (rendered (fst (step (fst (run c es)) (InputVolume inVolume now))))
         = lastUserSpeechTime (rendered c)).
Proof.
  intros Hu Hall Hv.
  destruct (@run_during_speech es c Hu Hall) as [A B].
  split; [split; [exact A | exact B] |].
  split.
  - rewrite step_isUserSpeaking_eq. exact Hv.
  - rewrite step_lastUserSpeechTime, A. cbn [negb andb]. exact B.
Qed.

Lemma lastUserSpeechTime_is_speech_start_witness :
  lastUserSpeechTime
    (rendered
       (fst (step
               (fst (run (fst (execution screenShared [InputVolume 0.5 1000]))
                       [InputVolume 0.3 2000; OutputVolume 0.9;
                        SettleFires 0%nat AsCaptured; InputVolume 0.02 9000;
                        TickFires AsCaptured 10000]))
               (InputVolume 0.001 12000)))) = 1000.
Proof.
  apply (proj2 (@lastUserSpeechTime_is_speech_start
                  (fst (execution screenShared [InputVolume 0.5 1000]))
                  [InputVolume 0.3 2000; OutputVolume 0.9;
                   SettleFires 0%nat AsCaptured; InputVolume 0.02 9000;
                   TickFires AsCaptured 10000]
                  0.001%float 12000 eq_refl
                  ltac:(repeat constructor) eq_refl)).
Defined.
